(** * Task dependency graph engine: a shallow embedding of the DAG view

    The development embeds the front-end code that drives the task
    dependency graph (the [useTaskDependencies] hook, the [dagLayout]
    wrapper around the dagre layout library and the handlers of the
    [TaskDAGView] component) and states the engine's properties over it.

    Conventions.
    - A JavaScript string is a [string]; [null] and [undefined] are [None].
    - A JavaScript number is an integer of [Z]: the embedded code only
      stores, compares and shifts coordinates by whole constants.
    - A handler that calls [mutate] on a mutation returns the list of
      requests it issues, in order; the remote persistence service then
      consumes them.
    - The persistence service lives in the back end.  What the front end
      relies on is modelled from the specification of the engine, in
      [Remote]; every such definition says so. *)

From Stdlib Require Import String Ascii List ZArith Bool Lia Permutation Sorted.
Import ListNotations.
Open Scope string_scope.

(** ** shared/types: the records the front end exchanges with the service *)

(** [TaskDependency]: the task [task_id] depends on [depends_on_task_id]. *)
Module TaskDependency.
Record t := mk {
  id : string;
  task_id : string;
  depends_on_task_id : string
}.
End TaskDependency.

(** The body sent to [dependenciesApi.create]. *)
Module CreateDependency.
Record t := mk {
  task_id : string;
  depends_on_task_id : string
}.
End CreateDependency.

(** [ApiError]: the fields the hook reads. *)
Module ApiError.
Record t := mk {
  status : Z;
  message : string
}.
End ApiError.

(** [TaskWithAttemptStatus]: the fields the DAG view reads.  The two
    position fields are [number | null]. *)
Module Task.
Record t := mk {
  id : string;
  title : string;
  description : option string;
  status : string;
  created_at : string;
  dag_position_x : option Z;
  dag_position_y : option Z
}.
End Task.

(** [UpdateTask]: the body sent to [tasksApi.update]; a [null] field is
    [None]. *)
Module UpdateTask.
Record t := mk {
  title : option string;
  description : option string;
  status : option string;
  parent_workspace_id : option string;
  image_ids : option (list string);
  dag_position_x : option Z;
  dag_position_y : option Z;
  clear_dag_position : bool
}.
End UpdateTask.

(** JavaScript truthiness of a string: only the empty string is falsy. *)
Definition truthy (s : string) : bool := negb (s =? "").

(** ** hooks/useTaskDependencies.ts: edge identifiers *)

Module EdgeId.

(** [s.startsWith(p)] *)
Fixpoint startsWith (s p : string) {struct p} : bool :=
  match p with
  | EmptyString => true
  | String c p' =>
      match s with
      | EmptyString => false
      | String d s' => Ascii.eqb c d && startsWith s' p'
      end
  end.

(** [s.slice(n)] for a non-negative [n] *)
Fixpoint slice (n : nat) (s : string) : string :=
  match n with
  | O => s
  | S n' =>
      match s with
      | EmptyString => EmptyString
      | String _ s' => slice n' s'
      end
  end.

Definition getDependencyIdFromEdgeId (edgeId : string) : option string :=
  if startsWith edgeId "dep-" then Some (slice 4 edgeId) else None.

Definition createEdgeIdFromDependency (dependency : TaskDependency.t) : string :=
  "dep-" ++ TaskDependency.id dependency.

End EdgeId.

(** ** The dependency graph over task ids *)

Module Graph.

(** An edge [(from, to)]: [from] is the prerequisite, [to] the dependent. *)
Definition edge : Type := string * string.

(** A directed path of zero or more edges. *)
Inductive path (E : list edge) : string -> string -> Prop :=
| path_refl : forall v, path E v v
| path_step : forall a c b, In (a, c) E -> path E c b -> path E a b.

(** A directed cycle: an edge whose head leads back to its tail. *)
Definition has_cycle (E : list edge) : Prop :=
  exists v w, In (v, w) E /\ path E w v.

Definition acyclic (E : list edge) : Prop :=
  forall v w, In (v, w) E -> ~ path E w v.

Definition edge_eqb (e1 e2 : edge) : bool :=
  (fst e1 =? fst e2) && (snd e1 =? snd e2).

(** The graph of a dependency list: each dependency contributes the edge
    [depends_on_task_id -> task_id]. *)
Definition of_dependencies (deps : list TaskDependency.t) : list edge :=
  map (fun d => (TaskDependency.depends_on_task_id d, TaskDependency.task_id d))
      deps.

End Graph.

(** ** The remote persistence service *)

Module Remote.
Import Graph.

(** Modelled from the spec: a step of the reachability search below, the
    edges left once [a] has been expanded. *)
Definition without (a : string) (E : list edge) : list edge :=
  filter (fun e => negb (fst e =? a)) E.

(** Modelled from the spec: the reachability search of the Acyclicity
    Guard (the service's own check is not part of the front end).  A
    depth-first search from [a] along existing edges; a node that has
    been expanded loses its outgoing edges, so every edge is followed
    at most once along a branch and [length E] steps are enough. *)
Fixpoint reach (fuel : nat) (E : list edge) (a b : string) : bool :=
  if a =? b then true
  else
    match fuel with
    | O => false
    | S fuel' =>
        existsb (fun e => (fst e =? a) && reach fuel' (without a E) (snd e) b) E
    end.

(** Modelled from the spec: whether [b] can be reached from [a]. *)
Definition reachable (E : list edge) (a b : string) : bool :=
  reach (length E) E a b.

(** Modelled from the spec: the decisions of the guard, named after the
    error kinds. *)
Inductive verdict : Type :=
| Accept
| SelfDependency
| DuplicateEdge
| CycleRejected.

(** Modelled from the spec: the Acyclicity Guard.  Reject at once when
    [from == to]; reject when the same [(from, to)] already exists;
    otherwise accept iff [from] cannot be reached from [to]. *)
Definition guard (E : list edge) (from to : string) : verdict :=
  if from =? to then SelfDependency
  else if existsb (edge_eqb (from, to)) E then DuplicateEdge
  else if reachable E to from then CycleRejected
  else Accept.

(** Modelled from the spec: the durable copy the service owns, the
    dependencies and the tasks of one project. *)
Record store := mkStore {
  dependencies : list TaskDependency.t;
  tasks : list Task.t
}.

(** Modelled from the spec: the Conflict failure of [createDependency];
    the hook reads it as status 409. *)
Definition conflict : ApiError.t := ApiError.mk 409%Z "Conflict".

(** Modelled from the spec: [createDependency(scope, from, to)] of the
    persistence service.  It fails with Conflict when the pair already
    exists or would close a cycle (an edge from a task to itself closes
    one) and leaves the store as it is; otherwise it stores the edge
    under the id the service chose ([fresh]) and answers with it. *)
Definition create (fresh : string) (data : CreateDependency.t) (s : store)
  : store * (ApiError.t + TaskDependency.t) :=
  let from := CreateDependency.depends_on_task_id data in
  let to := CreateDependency.task_id data in
  match guard (of_dependencies (dependencies s)) from to with
  | Accept =>
      let d := TaskDependency.mk fresh to from in
      (mkStore (dependencies s ++ [d]) (tasks s), inr d)
  | _ => (s, inl conflict)
  end.

(** Modelled from the spec: [deleteDependency(edgeId)]; removal is
    unconditional and an id that is not stored is a no-op. *)
Definition delete (dependencyId : string) (s : store) : store :=
  mkStore
    (filter (fun d => negb (TaskDependency.id d =? dependencyId)) (dependencies s))
    (tasks s).

(** Modelled from the spec: a task with its position replaced and its
    payload untouched. *)
Definition set_position (x y : option Z) (t : Task.t) : Task.t :=
  Task.mk (Task.id t) (Task.title t) (Task.description t) (Task.status t)
          (Task.created_at t) x y.

(** Modelled from the spec: [updateTaskPosition(taskId, x, y | null)];
    null for both clears the placement.  Only the position of the
    addressed task changes. *)
Definition updateTaskPosition (taskId : string) (x y : option Z) (s : store)
  : store :=
  mkStore
    (dependencies s)
    (map (fun t => if Task.id t =? taskId then set_position x y t else t)
         (tasks s)).

(** Modelled from the spec: [tasksApi.update(taskId, data)] as the view
    uses it, where every payload field of the body is null and the
    position fields carry the request of [updateTaskPosition]. *)
Definition update (taskId : string) (data : UpdateTask.t) (s : store) : store :=
  updateTaskPosition taskId
    (UpdateTask.dag_position_x data) (UpdateTask.dag_position_y data) s.

End Remote.

(** ** @xyflow/react: nodes, edges and connections *)

Module Flow.

Record XYPosition := mkPosition {
  x : Z;
  y : Z
}.

(** [Node<T>]: [data] is the caller's payload. *)
Record Node (T : Type) := mkNode {
  id : string;
  type : string;
  position : XYPosition;
  data : T
}.
Arguments mkNode {T} _ _ _ _.
Arguments id {T} _.
Arguments type {T} _.
Arguments position {T} _.
Arguments data {T} _.

(** [Edge]: the marker and the delete callback only affect rendering. *)
Record Edge := mkEdge {
  edge_id : string;
  source : string;
  target : string;
  edge_type : string
}.

(** [Connection]: [source] and [target] are [string | null]. *)
Record Connection := mkConnection {
  conn_source : option string;
  conn_target : option string
}.

(** The directed graph a list of edges draws. *)
Definition graph (edges : list Edge) : list Graph.edge :=
  map (fun e => (source e, target e)) edges.

End Flow.

(** ** dagre: the part of the graph API the layout wrapper calls

    dagre is a third-party library.  Its graph object is modelled as the
    wrapper sees it: nodes and edges keyed by id, kept in insertion order;
    the layout itself stays a parameter of the wrapper. *)

Module Dagre.

Inductive rankdir : Type := TB | BT | LR | RL.

Record GraphLabel := mkGraphLabel {
  dir : rankdir;
  nodesep : Z;
  ranksep : Z;
  marginx : Z;
  marginy : Z
}.

(** A node label before layout ... *)
Record NodeSize := mkSize {
  width : Z;
  height : Z
}.

(** ... and after layout, when the centre of the node is known. *)
Record NodeLayout := mkLayout {
  size : NodeSize;
  x : Z;
  y : Z
}.

(** A node whose label is [undefined] has [None]. *)
Record Graph (L : Type) := mkGraph {
  graph_label : option GraphLabel;
  nodes : list (string * option L);
  edges : list (string * string)
}.
Arguments mkGraph {L} _ _ _.
Arguments graph_label {L} _.
Arguments nodes {L} _.
Arguments edges {L} _.

Fixpoint assoc {V : Type} (k : string) (l : list (string * V)) : option V :=
  match l with
  | [] => None
  | (k', v) :: l' => if k' =? k then Some v else assoc k l'
  end.

(** Write [v] under [k]: in place when the key exists, at the end
    otherwise. *)
Fixpoint put {V : Type} (k : string) (v : V) (l : list (string * V))
  : list (string * V) :=
  match l with
  | [] => [(k, v)]
  | (k', v') :: l' =>
      if k' =? k then (k', v) :: l' else (k', v') :: put k v l'
  end.

(** Create [k] with the default [d] unless the key exists. *)
Fixpoint touch {V : Type} (k : string) (d : V) (l : list (string * V))
  : list (string * V) :=
  match l with
  | [] => [(k, d)]
  | (k', v') :: l' =>
      if k' =? k then (k', v') :: l' else (k', v') :: touch k d l'
  end.

(** [new dagre.graphlib.Graph()] *)
Definition empty {L : Type} : Graph L := mkGraph None [] [].

(** [g.setGraph(label)] *)
Definition setGraph {L : Type} (label : GraphLabel) (g : Graph L) : Graph L :=
  mkGraph (Some label) (nodes g) (edges g).

(** [g.setNode(v, label)] *)
Definition setNode {L : Type} (v : string) (label : L) (g : Graph L) : Graph L :=
  mkGraph (graph_label g) (put v (Some label) (nodes g)) (edges g).

(** [g.setNode(v)]: no default node label is installed, so a node
    created this way has an undefined label; an existing node keeps
    its label. *)
Definition ensureNode {L : Type} (v : string) (g : Graph L) : Graph L :=
  mkGraph (graph_label g) (touch v None (nodes g)) (edges g).

(** [g.setEdge(v, w)]: an edge that exists is left alone; a new edge
    first makes sure both endpoints are nodes. *)
Definition setEdge {L : Type} (v w : string) (g : Graph L) : Graph L :=
  if existsb (Graph.edge_eqb (v, w)) (edges g) then g
  else
    let g' := ensureNode w (ensureNode v g) in
    mkGraph (graph_label g') (nodes g') (edges g' ++ [(v, w)]).

(** [g.node(v)]: [undefined] for a missing node and for a node without
    a label. *)
Definition node {L : Type} (g : Graph L) (v : string) : option L :=
  match assoc v (nodes g) with
  | Some (Some label) => Some label
  | _ => None
  end.

(** [dagre.layout]: takes the sized graph, gives every labelled node
    its centre. *)
Definition engine : Type := Graph NodeSize -> Graph NodeLayout.

End Dagre.

(** ** lib/dagLayout.ts *)

Module DagLayout.
Import Flow.

Definition NODE_WIDTH : Z := 280%Z.
Definition NODE_HEIGHT : Z := 100%Z.

Record LayoutOptions := mkOptions {
  direction : option Dagre.rankdir;
  nodeSpacing : option Z;
  rankSpacing : option Z
}.

(** The default [options = {}]. *)
Definition no_options : LayoutOptions := mkOptions None None None.

Definition or_default {A : Type} (o : option A) (d : A) : A :=
  match o with
  | Some a => a
  | None => d
  end.

(** The graph handed to [dagre.layout]. *)
Definition build_graph {T : Type} (nodes : list (Node T)) (edges : list Edge)
    (options : LayoutOptions) : Dagre.Graph Dagre.NodeSize :=
  let direction := or_default (direction options) Dagre.TB in
  let nodeSpacing := or_default (nodeSpacing options) 50%Z in
  let rankSpacing := or_default (rankSpacing options) 100%Z in
  let dagreGraph :=
    Dagre.setGraph
      (Dagre.mkGraphLabel direction nodeSpacing rankSpacing 50%Z 50%Z)
      Dagre.empty in
  let dagreGraph :=
    fold_left
      (fun g node => Dagre.setNode (id node) (Dagre.mkSize NODE_WIDTH NODE_HEIGHT) g)
      nodes dagreGraph in
  fold_left (fun g edge => Dagre.setEdge (source edge) (target edge) g)
            edges dagreGraph.

(** The last [map]: what one node becomes once the graph is laid out. *)
Definition apply_position {T : Type} (dagreGraph : Dagre.Graph Dagre.NodeLayout)
    (node : Node T) : Node T :=
  match Dagre.node dagreGraph (id node) with
  | None => node
  | Some nodeWithPosition =>
      mkNode (id node) (type node)
             (mkPosition (Dagre.x nodeWithPosition - NODE_WIDTH / 2)%Z
                         (Dagre.y nodeWithPosition - NODE_HEIGHT / 2)%Z)
             (data node)
  end.

Definition getLayoutedElements {T : Type} (layout : Dagre.engine)
    (nodes : list (Node T)) (edges : list Edge) (options : LayoutOptions)
  : list (Node T) :=
  let dagreGraph := layout (build_graph nodes edges options) in
  map (apply_position dagreGraph) nodes.

End DagLayout.

(** ** components/tasks/TaskDagView: the handlers of the DAG view *)

Module View.
Import Flow.

(** What a handler asks of the remote service through a mutation. *)
Inductive request : Type :=
| CreateDependencyReq (data : CreateDependency.t)
| DeleteDependencyReq (dependencyId : string)
| UpdateTaskReq (taskId : string) (data : UpdateTask.t).

(** A task is in the DAG if it has a position set. *)
Definition has_position (task : Task.t) : bool :=
  match Task.dag_position_x task, Task.dag_position_y task with
  | Some _, Some _ => true
  | _, _ => false
  end.

(** The [useMemo] that splits [tasks] into [dagTasks] and [poolTasks]:
    one pass, each task pushed to one of two arrays. *)
Definition classify (tasks : list Task.t) : list Task.t * list Task.t :=
  fold_left
    (fun (acc : list Task.t * list Task.t) task =>
       let '(inDag, inPool) := acc in
       if has_position task then ((inDag ++ [task])%list, inPool)
       else (inDag, (inPool ++ [task])%list))
    tasks ([], []).

Definition dagTasks (tasks : list Task.t) : list Task.t := fst (classify tasks).
Definition poolTasks (tasks : list Task.t) : list Task.t := snd (classify tasks).

Definition createEdges (dependencies : list TaskDependency.t) : list Edge :=
  map (fun dep =>
         mkEdge (EdgeId.createEdgeIdFromDependency dep)
                (TaskDependency.depends_on_task_id dep)
                (TaskDependency.task_id dep)
                "dependency")
      dependencies.

(** [onConnect]: source = depends_on_task_id (the task that must be
    completed first), target = task_id (the task that depends on
    source). *)
Definition onConnect (connection : Connection) : list request :=
  match conn_source connection, conn_target connection with
  | Some source, Some target =>
      if truthy source && truthy target then
        [CreateDependencyReq (CreateDependency.mk target source)]
      else []
  | _, _ => []
  end.

(** What [handleDrop] reads from the drop: the dragged id stored in the
    transfer (empty when there is none), the pointer in flow
    coordinates, and the [data-id] of the element under the pointer. *)
Record DropEvent := mkDrop {
  sidebar_task : string;
  flow_position : XYPosition;
  element_data_id : option string
}.

Definition place_at (p : XYPosition) : UpdateTask.t :=
  UpdateTask.mk None None None None None (Some (x p)) (Some (y p)) false.

Definition clear_position : UpdateTask.t :=
  UpdateTask.mk None None None None None None None true.

Definition handleDrop (poolTasks : list Task.t) (e : DropEvent) : list request :=
  let taskId := sidebar_task e in
  if negb (truthy taskId) then []
  else
    match find (fun t => Task.id t =? taskId) poolTasks with
    | None => []
    | Some _ =>
        UpdateTaskReq taskId (place_at (flow_position e))
        :: match element_data_id e with
           | Some targetNodeId =>
               if truthy targetNodeId && negb (targetNodeId =? taskId) then
                 [CreateDependencyReq (CreateDependency.mk taskId targetNodeId)]
               else []
           | None => []
           end
    end.

(** [handleNodeDragStop]: [isDraggingOverSidebar] is the value of the
    ref when the drag ends. *)
Definition handleNodeDragStop {T : Type} (isDraggingOverSidebar : bool)
    (node : Node T) : list request :=
  if isDraggingOverSidebar then [UpdateTaskReq (id node) clear_position]
  else [].

End View.

(** ** hooks/useTaskDependencies.ts: the query and its mutations

    The view always passes a project id, so the query is enabled and
    [invalidateDependencies] does refetch.  [console.error] writes the
    same text as the alert and is left out. *)

Module Hook.

(** [query.data] and what the hook has shown through [window.alert]. *)
Record state := mkState {
  data : option (list TaskDependency.t);
  alerts : list string
}.

(** [query.data ?? []] *)
Definition dependencies (st : state) : list TaskDependency.t :=
  match data st with
  | Some deps => deps
  | None => []
  end.

Definition conflict_text : string :=
  "Cannot create dependency: This would create a circular dependency or the dependency already exists.".

(** The text [createDependency.onError] alerts. *)
Definition create_error_text (error : ApiError.t) : string :=
  if (ApiError.status error =? 409)%Z then conflict_text
  else "Failed to create dependency: " ++ ApiError.message error.

Definition createDependency_onError (error : ApiError.t) (st : state) : state :=
  mkState (data st) (alerts st ++ [create_error_text error]).

(** [invalidateDependencies]: the query is fetched again and holds what
    the service lists. *)
Definition invalidateDependencies (listed : list TaskDependency.t) (st : state)
  : state :=
  mkState (Some listed) (alerts st).

Definition createDependency_onSuccess (listed : list TaskDependency.t)
    (st : state) : state :=
  invalidateDependencies listed st.

Definition deleteDependency_onSuccess (listed : list TaskDependency.t)
    (st : state) : state :=
  invalidateDependencies listed st.

End Hook.

(** ** One session of the view against the remote service *)

Module Session.
Import View.

Record state := mkState {
  remote : Remote.store;
  hook : Hook.state
}.

Definition initial : state :=
  mkState (Remote.mkStore [] []) (Hook.mkState None []).

(** The edges the view draws: [createEdges(dependencies)]. *)
Definition edges (s : state) : list Flow.Edge :=
  createEdges (Hook.dependencies (hook s)).

(** [mutate] of the mutation a request belongs to; [fresh] is the id
    the service gives a new dependency. *)
Definition mutate (fresh : string) (r : request) (s : state) : state :=
  match r with
  | CreateDependencyReq data =>
      let '(remote', response) := Remote.create fresh data (remote s) in
      match response with
      | inr _ =>
          mkState remote'
            (Hook.createDependency_onSuccess (Remote.dependencies remote') (hook s))
      | inl error =>
          mkState remote' (Hook.createDependency_onError error (hook s))
      end
  | DeleteDependencyReq dependencyId =>
      let remote' := Remote.delete dependencyId (remote s) in
      mkState remote'
        (Hook.deleteDependency_onSuccess (Remote.dependencies remote') (hook s))
  | UpdateTaskReq taskId data =>
      mkState (Remote.update taskId data (remote s)) (hook s)
  end.

Inductive event : Type :=
| Local (fresh : string) (r : request)
| Foreign (fresh : string) (r : request)
| Refetch.

(** A local request goes through the hook; a request of another session
    only changes the remote store; a refetch reloads the query.  A local
    request whose answer is still on its way is seen by the query like a
    request of another session that a later refetch picks up. *)
Definition step (s : state) (ev : event) : state :=
  match ev with
  | Local fresh r => mutate fresh r s
  | Foreign fresh r =>
      mkState (remote (mutate fresh r s)) (hook s)
  | Refetch =>
      mkState (remote s)
        (Hook.invalidateDependencies (Remote.dependencies (remote s)) (hook s))
  end.

Definition run (evs : list event) (s : state) : state := fold_left step evs s.

(** Every request a handler issued, in order. *)
Definition dispatch (fresh : string) (rs : list request) (s : state) : state :=
  fold_left (fun s r => mutate fresh r s) rs s.

(** The stored edge set and the drawn edge set as directed graphs. *)
Definition remote_graph (s : state) : list Graph.edge :=
  Graph.of_dependencies (Remote.dependencies (remote s)).

Definition view_graph (s : state) : list Graph.edge := Flow.graph (edges s).

Definition invariant (s : state) : Prop :=
  Graph.acyclic (remote_graph s) /\ Graph.acyclic (view_graph s).

(** Whether the service takes a creation request in state [s]. *)
Definition accepted (fresh : string) (data : CreateDependency.t) (s : state)
  : bool :=
  match snd (Remote.create fresh data (remote s)) with
  | inr _ => true
  | inl _ => false
  end.

(** The edge a creation request asks for. *)
Definition requested_edge (data : CreateDependency.t) : Graph.edge :=
  (CreateDependency.depends_on_task_id data, CreateDependency.task_id data).

(** The view and the service hold the same dependencies. *)
Definition in_sync (s : state) : Prop :=
  Hook.dependencies (hook s) = Remote.dependencies (remote s).

End Session.

(** ** Reading a layout policy off the wrapper *)

Module LayoutPolicy.
Import Flow DagLayout.

(** The engine never loses a labelled node: dagre writes the centre into
    the label it was given. *)
Definition keeps_labels (layout : Dagre.engine) : Prop :=
  forall g v size,
    Dagre.node g v = Some size -> exists l, Dagre.node (layout g) v = Some l.

(** A node moved to the top-left corner that belongs to the centre in
    label [l]. *)
Definition placed_by {T : Type} (l : Dagre.NodeLayout) (node : Node T) : Node T :=
  mkNode (id node) (type node)
         (mkPosition (Dagre.x l - 140)%Z (Dagre.y l - 50)%Z)
         (data node).

End LayoutPolicy.

(** ** Example data *)

Module Scenario.
Import View Session.

(** Three tasks A, B, C: the edges (A,B) and (B,C) are taken, (C,A)
    would close a cycle. *)
Definition three_tasks : list event :=
  [ Local "e1" (CreateDependencyReq (CreateDependency.mk "B" "A"));
    Local "e2" (CreateDependencyReq (CreateDependency.mk "C" "B"));
    Local "e3" (CreateDependencyReq (CreateDependency.mk "A" "C")) ].

(** A stand-in layout engine for the examples: every labelled node goes
    into one column, in insertion order, inside the margins. *)
Fixpoint stack (label : Dagre.GraphLabel) (i : Z)
    (l : list (string * option Dagre.NodeSize))
  : list (string * option Dagre.NodeLayout) :=
  match l with
  | [] => []
  | (v, None) :: l' => (v, None) :: stack label i l'
  | (v, Some sz) :: l' =>
      (v, Some (Dagre.mkLayout sz
                  (Dagre.marginx label + Dagre.width sz / 2)%Z
                  (Dagre.marginy label + Dagre.height sz / 2
                   + i * (Dagre.height sz + Dagre.ranksep label))%Z))
      :: stack label (i + 1)%Z l'
  end.

Definition column : Dagre.engine :=
  fun g =>
    let label :=
      DagLayout.or_default (Dagre.graph_label g)
        (Dagre.mkGraphLabel Dagre.TB 50%Z 50%Z 0%Z 0%Z) in
    Dagre.mkGraph (Dagre.graph_label g) (stack label 0%Z (Dagre.nodes g))
                  (Dagre.edges g).

(** Two nodes that sit on top of each other and depend on each other. *)
Definition knot_nodes : list (Flow.Node unit) :=
  [ Flow.mkNode "A" "task" (Flow.mkPosition 0 0) tt;
    Flow.mkNode "B" "task" (Flow.mkPosition 0 0) tt ].

Definition knot_edges : list Flow.Edge :=
  [ Flow.mkEdge "dep-1" "A" "B" "dependency";
    Flow.mkEdge "dep-2" "B" "A" "dependency" ].

(** A pooled task, a placed task and the dependency between them. *)
Definition pooled_task : Task.t :=
  Task.mk "P" "write tests" None "todo" "2025-01-02" None None.

Definition placed_task : Task.t :=
  Task.mk "X" "design" None "todo" "2025-01-01" (Some 10%Z) (Some 10%Z).

Definition half_placed_task : Task.t :=
  Task.mk "H" "review" None "todo" "2025-01-03" (Some 10%Z) None.

End Scenario.

(** ** components/tasks/TaskDAGView: the delete dialog *)

Module DeleteDialog.
Import View.

(** The two pieces of state of the dialog. *)
Record state := mkDialog {
  deleteDialogOpen : bool;
  edgeToDelete : option string
}.

Definition closed : state := mkDialog false None.

(** [handleEdgeDelete] *)
Definition handleEdgeDelete (edgeId : string) (st : state) : state :=
  mkDialog true (Some edgeId).

(** [confirmDelete]: the requests it issues and the state it leaves. *)
Definition confirmDelete (st : state) : state * list request :=
  let requests :=
    match edgeToDelete st with
    | Some edge =>
        if truthy edge then
          match EdgeId.getDependencyIdFromEdgeId edge with
          | Some dependencyId =>
              if truthy dependencyId then [DeleteDependencyReq dependencyId]
              else []
          | None => []
          end
        else []
    | None => []
    end in
  (mkDialog false None, requests).

(** [cancelDelete] *)
Definition cancelDelete (st : state) : state := mkDialog false None.

End DeleteDialog.

(** ** components/tasks/TaskDAGView: edge changes coming from the canvas *)

Module EdgeChanges.
Import Flow View.

(** [EdgeChange] of the canvas library, by its [type]. *)
Inductive EdgeChange : Type :=
| Remove (id : string)
| Select (id : string) (selected : bool)
| Add (item : Edge)
| Replace (id : string) (item : Edge).

Definition is_remove (change : EdgeChange) : bool :=
  match change with
  | Remove _ => true
  | _ => false
  end.

(** The deletion a removal asks of the service, if its id names a
    dependency. *)
Definition removal_request (removal : EdgeChange) : list request :=
  match removal with
  | Remove id =>
      match EdgeId.getDependencyIdFromEdgeId id with
      | Some dependencyId =>
          if truthy dependencyId then [DeleteDependencyReq dependencyId] else []
      | None => []
      end
  | _ => []
  end.

(** [onEdgesChange]: what is handed to the default handler of the edge
    state (nothing when no change is left) and the requests issued. *)
Definition onEdgesChange (changes : list EdgeChange)
  : option (list EdgeChange) * list request :=
  let removals := filter is_remove changes in
  let otherChanges := filter (fun change => negb (is_remove change)) changes in
  (if (0 <? length otherChanges)%nat then Some otherChanges else None,
   flat_map removal_request removals).

End EdgeChanges.

(** ** Array.prototype.sort

    The sort is stable.  With a comparator that orders consistently its
    result is the one stable arrangement in comparator order, which
    insertion from the right computes. *)

Module ArraySort.

Section Sort.

Context {A : Type}.

(** [compare a b]: negative when [a] goes first, positive when [b] does. *)
Variable compare : A -> A -> Z.

Fixpoint insert (a : A) (sorted : list A) : list A :=
  match sorted with
  | [] => [a]
  | b :: rest =>
      if (compare a b <=? 0)%Z then a :: b :: rest else b :: insert a rest
  end.

Fixpoint sort (l : list A) : list A :=
  match l with
  | [] => []
  | a :: rest => insert a (sort rest)
  end.

(** [a] may stand before [b]. *)
Definition before (a b : A) : Prop := (compare a b <= 0)%Z.

End Sort.

End ArraySort.

(** ** components/tasks/TaskDAGView: the first placement of the nodes *)

Module GridLayout.
Import Flow.

Definition nodeWidth : Z := 220%Z.
Definition nodeHeight : Z := 80%Z.
Definition horizontalGap : Z := 120%Z.
Definition verticalGap : Z := 40%Z.
Definition maxTasksPerRow : Z := 8%Z.

(** The node of the task at [index] of the sorted tasks. *)
Definition node_at (index : Z) (task : Task.t) : Node Task.t :=
  let columnIndex := (index mod maxTasksPerRow)%Z in
  let rowIndex := (index / maxTasksPerRow)%Z in
  let x :=
    DagLayout.or_default (Task.dag_position_x task)
      (columnIndex * (nodeWidth + horizontalGap))%Z in
  let y :=
    DagLayout.or_default (Task.dag_position_y task)
      (rowIndex * (nodeHeight + verticalGap))%Z in
  mkNode (Task.id task) "task" (mkPosition x y) task.

(** [sortedTasks.forEach((task, index) => nodes.push(...))] from [index]
    on. *)
Fixpoint nodes_from (index : Z) (sortedTasks : list Task.t) : list (Node Task.t) :=
  match sortedTasks with
  | [] => []
  | task :: rest => node_at index task :: nodes_from (index + 1)%Z rest
  end.

Section Dates.

(** [new Date(created_at).getTime()] for the creation dates at hand,
    all of them valid dates. *)
Variable getTime : string -> Z.

Definition by_creation (a b : Task.t) : Z :=
  (getTime (Task.created_at a) - getTime (Task.created_at b))%Z.

(** [layoutNodes]: oldest task first, eight to a row, a saved coordinate
    taking precedence over the computed one. *)
Definition layoutNodes (tasks : list Task.t) : list (Node Task.t) :=
  let sortedTasks := ArraySort.sort by_creation tasks in
  nodes_from 0%Z sortedTasks.

End Dates.

End GridLayout.

(** ** components/tasks/TaskDagView.tsx: the first placement, by status *)

Module StatusLayout.
Import Flow.

Definition nodeWidth : Z := 200%Z.
Definition nodeHeight : Z := 80%Z.
Definition horizontalGap : Z := 50%Z.
Definition verticalGap : Z := 40%Z.

(** The values of [TaskStatus]. *)
Definition task_statuses : list string :=
  ["todo"; "inprogress"; "inreview"; "done"; "cancelled"].

(** The three arrays of [statusGroups], in key order. *)
Record groups := mkGroups {
  todo : list Task.t;
  inprogress : list Task.t;
  done : list Task.t
}.

(** [const group = statusGroups[task.status] || statusGroups.todo;
    group.push(task)] for a status of [TaskStatus]. *)
Definition push (g : groups) (task : Task.t) : groups :=
  if Task.status task =? "inprogress" then
    mkGroups (todo g) (inprogress g ++ [task]) (done g)
  else if Task.status task =? "done" then
    mkGroups (todo g) (inprogress g) (done g ++ [task])
  else
    mkGroups (todo g ++ [task]) (inprogress g) (done g).

Definition group_tasks (tasks : list Task.t) : groups :=
  fold_left push tasks (mkGroups [] [] []).

Definition node_at (columnIndex rowIndex : Z) (task : Task.t) : Node Task.t :=
  let x :=
    DagLayout.or_default (Task.dag_position_x task)
      (columnIndex * (nodeWidth + horizontalGap))%Z in
  let y :=
    DagLayout.or_default (Task.dag_position_y task)
      (rowIndex * (nodeHeight + verticalGap))%Z in
  mkNode (Task.id task) "task" (mkPosition x y) task.

(** [groupTasks.forEach((task, rowIndex) => nodes.push(...))] from
    [rowIndex] on. *)
Fixpoint column_from (columnIndex rowIndex : Z) (groupTasks : list Task.t)
  : list (Node Task.t) :=
  match groupTasks with
  | [] => []
  | task :: rest =>
      node_at columnIndex rowIndex task
      :: column_from columnIndex (rowIndex + 1)%Z rest
  end.

(** [layoutNodes]: one column per status group. *)
Definition layoutNodes (tasks : list Task.t) : list (Node Task.t) :=
  let statusGroups := group_tasks tasks in
  (column_from 0%Z 0%Z (todo statusGroups)
   ++ column_from 1%Z 0%Z (inprogress statusGroups)
   ++ column_from 2%Z 0%Z (done statusGroups))%list.

End StatusLayout.

(** ** components/tasks/TaskDAGView: the effect that lays out on its own *)

Module AutoLayoutEffect.

(** The two refs of the effect and whether its timeout is pending. *)
Record refs := mkRefs {
  prevDepsCount : nat;
  initialLayoutApplied : bool;
  timer : bool
}.

(** What the effect reads when it runs. *)
Record inputs := mkInputs {
  autoLayoutEnabled : bool;
  depsCount : nat;
  nodesCount : nat;
  edgesCount : nat
}.

Inductive outcome : Type :=
| Nothing
| LayoutNow
| LayoutScheduled.

(** The refs at mount: [useRef(dependencies.length)] and [useRef(false)]. *)
Definition mount (dependenciesLength : nat) : refs :=
  mkRefs dependenciesLength false false.

(** The body of the effect. *)
Definition effect (i : inputs) (r : refs) : refs * outcome :=
  if negb (initialLayoutApplied r) && autoLayoutEnabled i
     && (0 <? nodesCount i)%nat && (0 <? edgesCount i)%nat
  then (mkRefs (depsCount i) true true, LayoutScheduled)
  else if initialLayoutApplied r && autoLayoutEnabled i
          && negb (depsCount i =? prevDepsCount r)%nat
  then (mkRefs (depsCount i) (initialLayoutApplied r) (timer r), LayoutNow)
  else (mkRefs (depsCount i) (initialLayoutApplied r) (timer r), Nothing).

(** The cleanup the scheduling run returned: [clearTimeout(timer)]. *)
Definition cleanup (r : refs) : refs :=
  mkRefs (prevDepsCount r) (initialLayoutApplied r) false.

Inductive event : Type :=
| Run (i : inputs)
| Timeout.

(** One event: a run of the effect, after the cleanup of the run before
    it, or the timeout firing; the second component says what layout
    the event performs or schedules. *)
Definition step (r : refs) (ev : event) : refs * outcome :=
  match ev with
  | Run i => effect i (cleanup r)
  | Timeout =>
      (cleanup r, if timer r then LayoutNow else Nothing)
  end.

(** The outcomes of a sequence of events, in order, and the refs at the
    end. *)
Fixpoint run (evs : list event) (r : refs) : refs * list outcome :=
  match evs with
  | [] => (r, [])
  | ev :: rest =>
      let '(r', o) := step r ev in
      let '(r'', os) := run rest r' in
      (r'', o :: os)
  end.

Definition is_scheduled (o : outcome) : bool :=
  match o with
  | LayoutScheduled => true
  | _ => false
  end.

End AutoLayoutEffect.

(** ** components/tasks/TaskDAGView: dragging a node onto the pool *)

Module DragToPool.
Import Flow View.

(** [getBoundingClientRect()] of the sidebar. *)
Record DOMRect := mkRect {
  left : Z;
  right : Z;
  top : Z;
  bottom : Z
}.

(** [isOverSidebar]; the sidebar ref may be empty. *)
Definition isOverSidebar (sidebar : option DOMRect) (clientX clientY : Z) : bool :=
  match sidebar with
  | None => false
  | Some rect =>
      (left rect <=? clientX)%Z && (clientX <=? right rect)%Z
      && (top rect <=? clientY)%Z && (clientY <=? bottom rect)%Z
  end.

(** [isDraggingOverSidebar] as state and as the ref that follows it. *)
Record state := mkDrag {
  isDraggingOverSidebar : bool;
  isDraggingOverSidebarRef : bool
}.

Definition idle : state := mkDrag false false.

Inductive event (T : Type) : Type :=
| Drag (clientX clientY : Z)
| Commit
| DragStop (node : Node T).
Arguments Drag {T} _ _.
Arguments Commit {T}.
Arguments DragStop {T} _.

(** [handleNodeDrag], the effect that copies the state into the ref once
    the state is committed, and [handleNodeDragStop]. *)
Definition step {T : Type} (sidebar : option DOMRect) (st : state) (ev : event T)
  : state * list request :=
  match ev with
  | Drag clientX clientY =>
      (mkDrag (isOverSidebar sidebar clientX clientY) (isDraggingOverSidebarRef st),
       [])
  | Commit =>
      (mkDrag (isDraggingOverSidebar st) (isDraggingOverSidebar st), [])
  | DragStop node =>
      (mkDrag false (isDraggingOverSidebarRef st),
       handleNodeDragStop (isDraggingOverSidebarRef st) node)
  end.

Fixpoint run {T : Type} (sidebar : option DOMRect) (evs : list (event T))
    (st : state) : state * list request :=
  match evs with
  | [] => (st, [])
  | ev :: rest =>
      let '(st', rs) := step sidebar st ev in
      let '(st'', rs') := run sidebar rest st' in
      (st'', (rs ++ rs')%list)
  end.

(** A drag as the canvas reports it: every move is committed before the
    next event. *)
Definition moves {T : Type} (points : list (Z * Z)) : list (event T) :=
  flat_map (fun p => [Drag (fst p) (snd p); Commit]) points.

End DragToPool.

(** ** components/tasks/TaskDagSidebar *)

Module Sidebar.

Definition DEFAULT_WIDTH : Z := 288%Z.
Definition MIN_WIDTH : Z := 200%Z.
Definition MAX_WIDTH : Z := 600%Z.

(** The width and the three refs of the resize handle. *)
Record state := mkSidebar {
  internalWidth : Z;
  isResizing : bool;
  startX : Z;
  startWidth : Z
}.

Inductive event : Type :=
| ResizeStart (clientX : Z)
| ResizeMove (clientX : Z)
| ResizeEnd.

(** [handleResizeStart], [handleResizeMove] and [handleResizeEnd] of a
    sidebar that owns its width. *)
Definition step (st : state) (ev : event) : state :=
  match ev with
  | ResizeStart clientX =>
      mkSidebar (internalWidth st) true clientX (internalWidth st)
  | ResizeMove clientX =>
      if isResizing st then
        let deltaX := (clientX - startX st)%Z in
        let newWidth :=
          Z.max MIN_WIDTH (Z.min MAX_WIDTH (startWidth st + deltaX)) in
        mkSidebar newWidth true (startX st) (startWidth st)
      else st
  | ResizeEnd =>
      mkSidebar (internalWidth st) false (startX st) (startWidth st)
  end.

Definition run (evs : list event) (st : state) : state := fold_left step evs st.

Definition is_done (task : Task.t) : bool := Task.status task =? "done".

Section Dates.

(** [new Date(created_at).getTime()] for the creation dates at hand,
    all of them valid dates. *)
Variable getTime : string -> Z.

(** The comparator of the pool: todo first, then done; in each part the
    newest first. *)
Definition pool_order (a b : Task.t) : Z :=
  if is_done a && negb (is_done b) then 1%Z
  else if negb (is_done a) && is_done b then (-1)%Z
  else (getTime (Task.created_at b) - getTime (Task.created_at a))%Z.

Definition sortedTasks (poolTasks : list Task.t) : list Task.t :=
  ArraySort.sort pool_order poolTasks.

End Dates.

Definition todoCount (poolTasks : list Task.t) : nat :=
  length (filter (fun t => negb (is_done t)) poolTasks).

Definition doneCount (poolTasks : list Task.t) : nat :=
  length (filter is_done poolTasks).

(** A description as the card reads it: the sequence of its UTF-16 code
    units, which is what [length] counts and [substring] cuts. *)
Definition utf16 : Type := list N.

(** The three dots appended to a shortened description. *)
Definition dots : utf16 := [46%N; 46%N; 46%N].

(** [descriptionPreview] of a card in the pool, from [task.description];
    an empty description is falsy. *)
Definition descriptionPreview (description : option utf16) : option utf16 :=
  match description with
  | Some [] => None
  | Some units =>
      if (120 <? length units)%nat
      then Some (firstn 120 units ++ dots)%list
      else Some units
  | None => None
  end.

End Sidebar.

(** ** The DAG view that is handed its dependencies (an earlier TaskDagView) *)

Module PropsView.
Import Flow.

(** [TaskNodeData] without its callback. *)
Record TaskNodeData := mkData {
  task : Task.t;
  isSelected : bool
}.

(** [task.id === selectedTaskId] with an optional selection. *)
Definition selected (selectedTaskId : option string) (t : Task.t) : bool :=
  match selectedTaskId with
  | Some s => Task.id t =? s
  | None => false
  end.

(** The nodes of the first render. *)
Definition initialNodes (tasks : list Task.t) (selectedTaskId : option string)
  : list (Node TaskNodeData) :=
  map (fun t =>
         mkNode (Task.id t) "taskNode"
                (mkPosition (DagLayout.or_default (Task.dag_position_x t) 0%Z)
                            (DagLayout.or_default (Task.dag_position_y t) 0%Z))
                (mkData t (selected selectedTaskId t)))
      tasks.

(** The updater of the effect that follows [tasks] and the selection. *)
Definition syncNodes (tasks : list Task.t) (selectedTaskId : option string)
    (currentNodes : list (Node TaskNodeData)) : list (Node TaskNodeData) :=
  map (fun node =>
         match find (fun t => Task.id t =? id node) tasks with
         | None => node
         | Some t =>
             mkNode (id node) (type node) (position node)
                    (mkData t (selected selectedTaskId t))
         end)
      currentNodes.

(** The variables of [savePositionMutation]. *)
Record SavePosition := mkSave {
  taskId : string;
  x : Z;
  y : Z
}.

Definition save_node {T : Type} (node : Node T) : SavePosition :=
  mkSave (id node) (Flow.x (position node)) (Flow.y (position node)).

(** [onNodeDragStop] *)
Definition onNodeDragStop {T : Type} (node : Node T) : list SavePosition :=
  [save_node node].

Definition autoLayoutOptions : DagLayout.LayoutOptions :=
  DagLayout.mkOptions (Some Dagre.TB) (Some 80%Z) (Some 120%Z).

(** [onAutoLayout]: the nodes handed to [setNodes] and the positions
    saved. *)
Definition onAutoLayout {T : Type} (layout : Dagre.engine)
    (nodes : list (Node T)) (edges : list Edge)
  : list (Node T) * list SavePosition :=
  let layoutedNodes :=
    DagLayout.getLayoutedElements layout nodes edges autoLayoutOptions in
  (layoutedNodes, map save_node layoutedNodes).

(** [hasNoPositions]: no task has either coordinate. *)
Definition hasNoPositions (tasks : list Task.t) : bool :=
  forallb (fun t =>
             match Task.dag_position_x t, Task.dag_position_y t with
             | None, None => true
             | _, _ => false
             end)
          tasks.

(** The [hasInitialized] state of the effect that lays out at the first
    render, and whether the timeout it set is pending. *)
Record initialLayout := mkInitial {
  hasInitialized : bool;
  layoutTimer : bool
}.

Inductive initialOutcome : Type :=
| Idle
| Scheduled
| AutoLayout.

(** The body of the effect for a render with these tasks. *)
Definition initialLayoutEffect (tasks : list Task.t) (st : initialLayout)
  : initialLayout * initialOutcome :=
  if hasInitialized st then (st, Idle)
  else if hasNoPositions tasks && (0 <? length tasks)%nat
  then (mkInitial true true, Scheduled)
  else (st, Idle).

(** The cleanup the scheduling run returned: [clearTimeout(timer)]. *)
Definition clearLayoutTimer (st : initialLayout) : initialLayout :=
  mkInitial (hasInitialized st) false.

Inductive initialEvent : Type :=
| Render (tasks : list Task.t)
| TimerFires.

(** A run of the effect, after the cleanup of the run before it, or the
    timeout firing and calling [onAutoLayout]. *)
Definition initialStep (st : initialLayout) (ev : initialEvent)
  : initialLayout * initialOutcome :=
  match ev with
  | Render tasks => initialLayoutEffect tasks (clearLayoutTimer st)
  | TimerFires => (clearLayoutTimer st, if layoutTimer st then AutoLayout else Idle)
  end.

Fixpoint initialRun (evs : list initialEvent) (st : initialLayout)
  : initialLayout * list initialOutcome :=
  match evs with
  | [] => (st, [])
  | ev :: rest =>
      let '(st', o) := initialStep st ev in
      let '(st'', os) := initialRun rest st' in
      (st'', o :: os)
  end.

End PropsView.

(** * Properties *)

Module EdgeIdFacts.
Import EdgeId.

Lemma startsWith_append (p s : string) : startsWith (p ++ s) p = true.
Proof.
  induction p as [|c p IH]; simpl; [reflexivity|].
  now rewrite Ascii.eqb_refl, IH.
Qed.

Lemma slice_append (p s : string) : slice (String.length p) (p ++ s) = s.
Proof. induction p as [|c p IH]; simpl; [reflexivity | exact IH]. Qed.

(** C10. Parsing the edge id made from a dependency gives back the
    dependency's id, and an edge id that does not start with the prefix
    dep- has no dependency id (the parser answers null). *)
Theorem edge_id_roundtrip :
  (forall d : TaskDependency.t,
      getDependencyIdFromEdgeId (createEdgeIdFromDependency d) = Some (TaskDependency.id d))
  /\ (forall edgeId : string,
      startsWith edgeId "dep-" = false ->
      getDependencyIdFromEdgeId edgeId = None).
Proof.
  split.
  - intros d. unfold getDependencyIdFromEdgeId, createEdgeIdFromDependency.
    rewrite startsWith_append.
    exact (f_equal Some (slice_append "dep-" (TaskDependency.id d))).
  - intros edgeId H. unfold getDependencyIdFromEdgeId. now rewrite H.
Qed.

Lemma edge_id_roundtrip_witness :
  getDependencyIdFromEdgeId
    (createEdgeIdFromDependency (TaskDependency.mk "d1" "B" "A")) = Some "d1"
  /\ startsWith "edge-7" "dep-" = false
  /\ getDependencyIdFromEdgeId "edge-7" = None.
Proof.
  split; [exact (proj1 edge_id_roundtrip (TaskDependency.mk "d1" "B" "A"))|].
  split; [reflexivity|].
  apply (proj2 edge_id_roundtrip "edge-7"). reflexivity.
Defined.

End EdgeIdFacts.

(** ** Paths, cycles and the reachability search *)

Module GraphFacts.
Import Graph Remote.

Lemma path_edge (E : list edge) (a b : string) : In (a, b) E -> path E a b.
Proof. intros H. eapply path_step; [exact H | apply path_refl]. Qed.

Lemma path_trans (E : list edge) (a b c : string) :
  path E a b -> path E b c -> path E a c.
Proof.
  induction 1 as [v | a x b Hax _ IH]; intros Hbc; [exact Hbc|].
  eapply path_step; [exact Hax | exact (IH Hbc)].
Qed.

Lemma path_incl (E E' : list edge) (a b : string) :
  incl E E' -> path E a b -> path E' a b.
Proof.
  intros Hincl. induction 1 as [v | a x b Hax _ IH]; [apply path_refl|].
  eapply path_step; [apply Hincl; exact Hax | exact IH].
Qed.

Lemma acyclic_incl (E E' : list edge) :
  incl E' E -> acyclic E -> acyclic E'.
Proof.
  intros Hincl Hac v w Hin Hp.
  exact (Hac v w (Hincl _ Hin) (path_incl _ _ _ _ Hincl Hp)).
Qed.

Lemma acyclic_nil : acyclic [].
Proof. intros v w []. Qed.

(** A path in the graph with one more edge either avoids the new edge
    or splits around its first use. *)
Lemma path_add_edge (E : list edge) (f t x y : string) :
  path (E ++ [(f, t)]) x y ->
  path E x y \/ (path E x f /\ path E t y).
Proof.
  induction 1 as [v | a c b Hac _ IH]; [left; apply path_refl|].
  apply in_app_or in Hac. destruct Hac as [Hac | [Heq | []]].
  - destruct IH as [IH | [IH1 IH2]].
    + left. eapply path_step; eassumption.
    + right. split; [eapply path_step; eassumption | exact IH2].
  - inversion Heq; subst a c. right. split; [apply path_refl|].
    destruct IH as [IH | [_ IH2]]; assumption.
Qed.

(** Adding [(f, t)] keeps the graph acyclic when [f] cannot be reached
    from [t]. *)
Lemma acyclic_add (E : list edge) (f t : string) :
  acyclic E -> ~ path E t f -> acyclic (E ++ [(f, t)]).
Proof.
  intros Hac Hno v w Hin Hp.
  apply path_add_edge in Hp.
  apply in_app_or in Hin. destruct Hin as [Hin | [Heq | []]].
  - destruct Hp as [Hp | [Hp1 Hp2]]; [exact (Hac v w Hin Hp)|].
    apply Hno. eapply path_trans; [exact Hp2|].
    eapply path_step; eassumption.
  - inversion Heq; subst v w.
    destruct Hp as [Hp | [Hp _]]; exact (Hno Hp).
Qed.

Lemma without_incl (a : string) (E : list edge) : incl (without a E) E.
Proof. intros e He. apply filter_In in He. tauto. Qed.

Lemma without_shrinks (a c : string) (E : list edge) :
  In (a, c) E -> (length (without a E) < length E)%nat.
Proof.
  unfold without. induction E as [|e E IH]; simpl; [tauto|].
  intros [Heq | Hin].
  - subst e. simpl. rewrite String.eqb_refl. simpl.
    apply Nat.lt_succ_r. apply filter_length_le.
  - specialize (IH Hin). destruct (negb (fst e =? a)); simpl; lia.
Qed.

Lemma reach_sound (fuel : nat) :
  forall E a b, reach fuel E a b = true -> path E a b.
Proof.
  induction fuel as [|fuel IH]; intros E a b; simpl.
  - destruct (String.eqb_spec a b) as [->|_]; [intros _; apply path_refl|].
    discriminate.
  - destruct (String.eqb_spec a b) as [->|_]; [intros _; apply path_refl|].
    intros H. apply existsb_exists in H. destruct H as [[a' c] [Hin H]].
    apply andb_prop in H. destruct H as [Ha Hr]. simpl in Ha, Hr.
    apply String.eqb_eq in Ha. subst a'.
    eapply path_step; [exact Hin|].
    eapply path_incl; [apply (without_incl a) | exact (IH _ _ _ Hr)].
Qed.

(** A path towards [b] either never leaves from [a], or its part after
    the last visit of [a] does not. *)
Lemma path_last_visit (E : list edge) (a x b : string) :
  path E x b ->
  path (without a E) x b
  \/ exists c, In (a, c) E /\ path (without a E) c b.
Proof.
  induction 1 as [v | x y b Hxy _ IH]; [left; apply path_refl|].
  destruct IH as [IH | IH]; [|right; exact IH].
  destruct (String.eqb_spec x a) as [->|Hne].
  - right. exists y. split; assumption.
  - left. eapply path_step; [|exact IH].
    apply filter_In. split; [exact Hxy|]. simpl.
    apply negb_true_iff. apply String.eqb_neq. exact Hne.
Qed.

Lemma reach_complete (fuel : nat) :
  forall E a b,
    (length E <= fuel)%nat -> path E a b -> reach fuel E a b = true.
Proof.
  induction fuel as [|fuel IH]; intros E a b Hlen Hp.
  - simpl. destruct (String.eqb_spec a b) as [|Hne]; [reflexivity|].
    inversion Hp; subst; [congruence|].
    destruct E; [contradiction | simpl in Hlen; lia].
  - simpl. destruct (String.eqb_spec a b) as [|Hne]; [reflexivity|].
    assert (exists c, In (a, c) E /\ path (without a E) c b) as [c [Hin Hc]].
    { inversion Hp as [|a' y b' Hay Hyb]; subst; [congruence|].
      destruct (path_last_visit E a y b Hyb) as [H | H]; [|exact H].
      exists y. split; assumption. }
    apply existsb_exists. exists (a, c). split; [exact Hin|]. simpl.
    rewrite String.eqb_refl. simpl.
    apply IH; [|exact Hc].
    pose proof (without_shrinks a c E Hin). lia.
Qed.

(** The search decides reachability. *)
Lemma reachable_spec (E : list edge) (a b : string) :
  reachable E a b = true <-> path E a b.
Proof.
  split; [apply reach_sound | apply reach_complete; lia].
Qed.

Lemma edge_eqb_spec (e1 e2 : edge) : edge_eqb e1 e2 = true <-> e1 = e2.
Proof.
  destruct e1 as [a b], e2 as [c d]. unfold edge_eqb. simpl.
  rewrite andb_true_iff, !String.eqb_eq. split.
  - intros [-> ->]. reflexivity.
  - intros H. inversion H. tauto.
Qed.

(** What an accepted edge satisfies. *)
Lemma guard_accept (E : list edge) (f t : string) :
  guard E f t = Accept -> f <> t /\ ~ In (f, t) E /\ ~ path E t f.
Proof.
  unfold guard.
  destruct (String.eqb_spec f t) as [|Hne]; [discriminate|].
  destruct (existsb (edge_eqb (f, t)) E) eqn:Hdup; [discriminate|].
  destruct (reachable E t f) eqn:Hr; [discriminate|].
  intros _. split; [exact Hne|]. split.
  - intros Hin.
    assert (existsb (edge_eqb (f, t)) E = true) as H; [|congruence].
    apply existsb_exists. exists (f, t). split; [exact Hin|].
    now apply edge_eqb_spec.
  - intros Hp. apply reachable_spec in Hp. congruence.
Qed.

(** The guard accepts exactly the edges that are new, are no loop and
    close no cycle. *)
Lemma guard_accept_iff (E : list edge) (f t : string) :
  guard E f t = Accept <-> f <> t /\ ~ In (f, t) E /\ ~ path E t f.
Proof.
  split; [apply guard_accept|]. intros [Hne [Hnew Hno]]. unfold guard.
  apply String.eqb_neq in Hne. rewrite Hne.
  destruct (existsb (edge_eqb (f, t)) E) eqn:Hdup.
  - exfalso. apply existsb_exists in Hdup. destruct Hdup as [e [Hin He]].
    apply edge_eqb_spec in He. subst e. exact (Hnew Hin).
  - destruct (reachable E t f) eqn:Hr; [|reflexivity].
    exfalso. apply Hno. apply reachable_spec. exact Hr.
Qed.

(** The example scenarios of the guard: a cycle through three tasks, a
    loop, and the same edge twice. *)
Example guard_rejects_cycle :
  guard [("A", "B"); ("B", "C")] "C" "A" = CycleRejected.
Proof. reflexivity. Qed.

Example guard_rejects_loop : guard [] "A" "A" = SelfDependency.
Proof. reflexivity. Qed.

Example guard_rejects_duplicate : guard [("A", "B")] "A" "B" = DuplicateEdge.
Proof. reflexivity. Qed.

End GraphFacts.

(** ** The session: acyclicity and rejected additions *)

Module SessionFacts.
Import Graph Remote View Session GraphFacts Scenario.

Lemma graph_createEdges (deps : list TaskDependency.t) :
  Flow.graph (createEdges deps) = of_dependencies deps.
Proof.
  unfold Flow.graph, createEdges, of_dependencies.
  rewrite map_map. reflexivity.
Qed.

Lemma of_dependencies_app (l1 l2 : list TaskDependency.t) :
  of_dependencies (l1 ++ l2) = (of_dependencies l1 ++ of_dependencies l2)%list.
Proof. apply map_app. Qed.

Lemma of_dependencies_filter (f : TaskDependency.t -> bool)
    (deps : list TaskDependency.t) :
  incl (of_dependencies (filter f deps)) (of_dependencies deps).
Proof.
  intros e He. apply in_map_iff in He. destruct He as [d [Hd Hin]].
  apply in_map_iff. exists d. split; [exact Hd|].
  apply filter_In in Hin. tauto.
Qed.

(** The service answers a creation in one of two ways. *)
Lemma create_cases (fresh : string) (data : CreateDependency.t) (s : store) :
  let f := CreateDependency.depends_on_task_id data in
  let t := CreateDependency.task_id data in
  (guard (of_dependencies (dependencies s)) f t = Accept
   /\ create fresh data s =
        (mkStore (dependencies s ++ [TaskDependency.mk fresh t f]) (tasks s),
         inr (TaskDependency.mk fresh t f)))
  \/ (guard (of_dependencies (dependencies s)) f t <> Accept
      /\ create fresh data s = (s, inl conflict)).
Proof.
  intros f t. unfold create. fold f t.
  destruct (guard (of_dependencies (dependencies s)) f t) eqn:Hg;
    [left; split; reflexivity | right; split; [discriminate | reflexivity] ..].
Qed.

Lemma create_acyclic (fresh : string) (data : CreateDependency.t) (s : store) :
  acyclic (of_dependencies (dependencies s)) ->
  acyclic (of_dependencies (dependencies (fst (create fresh data s)))).
Proof.
  intros Hac.
  destruct (create_cases fresh data s) as [[Hg ->] | [_ ->]]; simpl; [|exact Hac].
  rewrite of_dependencies_app. simpl.
  apply guard_accept in Hg. apply acyclic_add; tauto.
Qed.

Lemma delete_acyclic (dependencyId : string) (s : store) :
  acyclic (of_dependencies (dependencies s)) ->
  acyclic (of_dependencies (dependencies (delete dependencyId s))).
Proof.
  intros Hac. simpl. eapply acyclic_incl; [|exact Hac].
  apply of_dependencies_filter.
Qed.

(** A request leaves the stored graph acyclic, and the view then draws
    either what it drew before or what the service lists. *)
Lemma mutate_effect (fresh : string) (r : request) (s : state) :
  acyclic (remote_graph s) ->
  acyclic (remote_graph (mutate fresh r s))
  /\ (Hook.dependencies (hook (mutate fresh r s)) = Hook.dependencies (hook s)
      \/ Hook.dependencies (hook (mutate fresh r s))
         = dependencies (remote (mutate fresh r s))).
Proof.
  intros Hac. destruct r as [data | dependencyId | taskId data]; simpl.
  - pose proof (create_acyclic fresh data (remote s) Hac) as Hac'.
    destruct (create fresh data (remote s)) as [remote' [error | d]]; simpl in *.
    + split; [exact Hac' | left; reflexivity].
    + split; [exact Hac' | right; reflexivity].
  - split; [apply delete_acyclic; exact Hac | right; reflexivity].
  - split; [exact Hac | left; reflexivity].
Qed.

Lemma step_invariant (s : state) (ev : event) :
  invariant s -> invariant (step s ev).
Proof.
  unfold invariant, view_graph, edges. rewrite !graph_createEdges.
  intros [Hr Hv]. destruct ev as [fresh r | fresh r |]; simpl.
  - destruct (mutate_effect fresh r s Hr) as [Hr' [-> | ->]]; split; assumption.
  - destruct (mutate_effect fresh r s Hr) as [Hr' _]. split; assumption.
  - split; assumption.
Qed.

Lemma run_invariant (evs : list event) :
  forall s, invariant s -> invariant (run evs s).
Proof.
  induction evs as [|ev evs IH]; intros s Hs; [exact Hs|].
  simpl. apply IH. apply step_invariant. exact Hs.
Qed.

Lemma initial_invariant : invariant initial.
Proof. split; exact acyclic_nil. Qed.

(** What a creation request does to the stored and the drawn edge set. *)
Lemma create_request_effect (fresh : string) (data : CreateDependency.t)
    (s : state) :
  let s' := mutate fresh (CreateDependencyReq data) s in
  if accepted fresh data s
  then remote_graph s' = (remote_graph s ++ [requested_edge data])%list
       /\ view_graph s' = remote_graph s'
  else remote_graph s' = remote_graph s /\ view_graph s' = view_graph s.
Proof.
  unfold accepted, remote_graph, view_graph, edges. rewrite !graph_createEdges.
  simpl.
  destruct (create_cases fresh data (remote s)) as [[_ ->] | [_ ->]]; simpl.
  - split; [apply of_dependencies_app | reflexivity].
  - split; reflexivity.
Qed.

(** C1. Along every sequence of requests (of this session or another
    one) and refetches that starts in an acyclic state, the stored edge
    set and the edge set the view draws stay free of directed cycles at
    every point, and a creation request adds its edge
    depends_on_task_id -> task_id exactly when the service accepts it:
    a refused request adds nothing. *)
Theorem acyclic_at_all_times (evs : list event) (s : state) :
  invariant s ->
  forall k : nat,
    let now := run (firstn k evs) s in
    invariant now
    /\ forall fresh data,
        let next := mutate fresh (CreateDependencyReq data) now in
        invariant next
        /\ if accepted fresh data now
           then remote_graph next = (remote_graph now ++ [requested_edge data])%list
                /\ view_graph next = remote_graph next
           else remote_graph next = remote_graph now
                /\ view_graph next = view_graph now.
Proof.
  intros Hs k now.
  assert (invariant now) as Hnow by (apply run_invariant; exact Hs).
  split; [exact Hnow|]. intros fresh data next. split.
  - exact (step_invariant now (Local fresh (CreateDependencyReq data)) Hnow).
  - exact (create_request_effect fresh data now).
Qed.

Lemma acyclic_at_all_times_witness :
  invariant initial
  /\ invariant (run (firstn 3 three_tasks) initial)
  /\ view_graph (run (firstn 3 three_tasks) initial) = [("A", "B"); ("B", "C")].
Proof.
  split; [exact initial_invariant|].
  split; [|reflexivity].
  exact (proj1 (acyclic_at_all_times three_tasks initial initial_invariant 3)).
Defined.

(** The error handler of the creation, whatever the failure: it shows
    the failure and leaves the query data alone. *)
Lemma onError_keeps_dependencies (error : ApiError.t) (st : Hook.state) :
  Hook.dependencies (Hook.createDependency_onError error st) = Hook.dependencies st
  /\ Hook.alerts (Hook.createDependency_onError error st)
     = (Hook.alerts st ++ [Hook.create_error_text error])%list.
Proof. split; reflexivity. Qed.

(** C2, refuted as stated.  With the edges (A,B) and (B,C) stored, asking
    for (A,B) again is refused as a duplicate, asking for (C,A) as a
    cycle and asking for (A,A) as a loop; the session ends in the very
    same state after each of them, with the very same alert, so the kind
    of the failure is not told. *)
Lemma rejections_look_alike :
  let s := run (firstn 2 three_tasks) initial in
  guard (remote_graph s) "A" "B" = DuplicateEdge
  /\ guard (remote_graph s) "C" "A" = CycleRejected
  /\ guard (remote_graph s) "A" "A" = SelfDependency
  /\ mutate "e3" (CreateDependencyReq (CreateDependency.mk "B" "A")) s
     = mutate "e3" (CreateDependencyReq (CreateDependency.mk "A" "C")) s
  /\ mutate "e3" (CreateDependencyReq (CreateDependency.mk "A" "A")) s
     = mutate "e3" (CreateDependencyReq (CreateDependency.mk "A" "C")) s.
Proof. repeat split. Qed.

(** C2, amended.  When the service refuses a creation request, the edges
    the view draws and the stored dependencies are what they were before
    the request, and a view that agreed with the service still agrees
    with it.  The refusal is handled by the error handler of the
    mutation alone: it shows one alert and leaves the query data alone,
    whatever the failure.  The alert is the conflict text for status
    409, the same for every such failure, and the quoted message for
    any other status. *)
Theorem rejected_addition_changes_nothing (fresh : string)
    (data : CreateDependency.t) (s : state) (error : ApiError.t) :
  snd (Remote.create fresh data (remote s)) = inl error ->
  let s' := mutate fresh (CreateDependencyReq data) s in
  edges s' = edges s
  /\ remote s' = remote s
  /\ hook s' = Hook.createDependency_onError error (hook s)
  /\ Hook.alerts (hook s') = (Hook.alerts (hook s) ++ [Hook.conflict_text])%list
  /\ (in_sync s -> in_sync s')
  /\ (forall (failure : ApiError.t) (st : Hook.state),
        Hook.dependencies (Hook.createDependency_onError failure st)
        = Hook.dependencies st
        /\ Hook.alerts (Hook.createDependency_onError failure st)
           = (Hook.alerts st
              ++ [if (ApiError.status failure =? 409)%Z then Hook.conflict_text
                  else ("Failed to create dependency: "
                        ++ ApiError.message failure)%string])%list)
  /\ (forall (e1 e2 : ApiError.t) (st : Hook.state),
        ApiError.status e1 = 409%Z -> ApiError.status e2 = 409%Z ->
        Hook.createDependency_onError e1 st = Hook.createDependency_onError e2 st).
Proof.
  intros Hresp s'. subst s'. unfold edges, in_sync. simpl.
  destruct (create_cases fresh data (remote s)) as [[_ Hc] | [_ Hc]];
    rewrite Hc in *; simpl in *; [discriminate|].
  inversion Hresp; subst error.
  split; [reflexivity|]. split; [reflexivity|]. split; [reflexivity|].
  split; [reflexivity|]. split; [auto|]. split.
  - intros failure st. split; reflexivity.
  - intros e1 e2 st H1 H2. unfold Hook.createDependency_onError, Hook.create_error_text.
    rewrite H1, H2. reflexivity.
Qed.

Lemma rejected_addition_changes_nothing_witness :
  let s := run (firstn 2 three_tasks) initial in
  let s' := mutate "e3" (CreateDependencyReq (CreateDependency.mk "A" "C")) s in
  snd (Remote.create "e3" (CreateDependency.mk "A" "C") (remote s)) = inl conflict
  /\ edges s' = edges s
  /\ Hook.alerts (hook s') = [Hook.conflict_text].
Proof.
  intros s s'.
  assert (snd (Remote.create "e3" (CreateDependency.mk "A" "C") (remote s))
          = inl conflict) as H by reflexivity.
  split; [exact H|].
  destruct (rejected_addition_changes_nothing "e3" (CreateDependency.mk "A" "C")
              s conflict H) as [He [_ [_ [Ha _]]]].
  split; [exact He | exact Ha].
Defined.

End SessionFacts.


(** ** The handlers of the view *)

Module ViewFacts.
Import View Session Scenario.

Lemma classify_from (tasks : list Task.t) :
  forall inDag inPool,
    fold_left
      (fun (acc : list Task.t * list Task.t) task =>
         let '(inDag, inPool) := acc in
         if has_position task then ((inDag ++ [task])%list, inPool)
         else (inDag, (inPool ++ [task])%list))
      tasks (inDag, inPool)
    = ((inDag ++ filter has_position tasks)%list,
       (inPool ++ filter (fun t => negb (has_position t)) tasks)%list).
Proof.
  induction tasks as [|task tasks IH]; intros inDag inPool; simpl.
  - now rewrite !app_nil_r.
  - destruct (has_position task); simpl; rewrite IH, <- app_assoc; reflexivity.
Qed.

Lemma classify_filter (tasks : list Task.t) :
  classify tasks
  = (filter has_position tasks, filter (fun t => negb (has_position t)) tasks).
Proof. unfold classify. now rewrite classify_from. Qed.

Lemma has_position_spec (task : Task.t) :
  has_position task = true
  <-> Task.dag_position_x task <> None /\ Task.dag_position_y task <> None.
Proof.
  unfold has_position.
  destruct (Task.dag_position_x task), (Task.dag_position_y task);
    split; try discriminate; try (intros [? ?]; congruence);
    intros _; split; discriminate.
Qed.

(** C7. The split into placed tasks and pooled tasks is computed from the
    task list alone: a task of the list is placed exactly when both of
    its position fields are present, pooled exactly when they are not,
    and never both. *)
Theorem placement_follows_position (tasks : list Task.t) :
  dagTasks tasks = filter has_position tasks
  /\ poolTasks tasks = filter (fun t => negb (has_position t)) tasks
  /\ forall task : Task.t,
      In task tasks ->
      (In task (dagTasks tasks)
       <-> Task.dag_position_x task <> None /\ Task.dag_position_y task <> None)
      /\ (In task (poolTasks tasks)
          <-> ~ (Task.dag_position_x task <> None
                 /\ Task.dag_position_y task <> None))
      /\ ~ (In task (dagTasks tasks) /\ In task (poolTasks tasks)).
Proof.
  unfold dagTasks, poolTasks. rewrite classify_filter. simpl.
  split; [reflexivity|]. split; [reflexivity|].
  intros task Hin.
  rewrite <- has_position_spec, !filter_In.
  destruct (has_position task); simpl; intuition congruence.
Qed.

Lemma placement_follows_position_witness :
  let tasks := [placed_task; pooled_task; half_placed_task] in
  In half_placed_task tasks
  /\ dagTasks tasks = [placed_task]
  /\ In half_placed_task (poolTasks tasks).
Proof.
  intros tasks.
  assert (In half_placed_task tasks) as Hin by (simpl; tauto).
  split; [exact Hin|]. split; [reflexivity|].
  apply (proj2 (proj2 (placement_follows_position tasks)) half_placed_task Hin).
  simpl. intros [_ H]. apply H. reflexivity.
Defined.

Lemma handleNodeDragStop_remote {T : Type} (node : Flow.Node T) (fresh : string)
    (s : state) :
  remote (dispatch fresh (handleNodeDragStop true node) s)
  = Remote.updateTaskPosition (Flow.id node) None None (remote s).
Proof. reflexivity. Qed.

(** C8. Dragging a placed node onto the pool sends one request that
    clears the position of that task.  Afterwards the dependencies, and
    so the edges, are the ones there were before; every other task is
    as it was; the task itself keeps its id, title, description, status
    and creation date, has no position and is classified as pooled. *)
Theorem clearing_position_keeps_edges {T : Type} (node : Flow.Node T)
    (fresh : string) (s : state) :
  let s' := dispatch fresh (handleNodeDragStop true node) s in
  let cleared (t : Task.t) :=
    Task.mk (Task.id t) (Task.title t) (Task.description t) (Task.status t)
            (Task.created_at t) None None in
  handleNodeDragStop true node = [UpdateTaskReq (Flow.id node) clear_position]
  /\ Remote.dependencies (remote s') = Remote.dependencies (remote s)
  /\ edges s' = edges s
  /\ Remote.tasks (remote s')
     = map (fun t => if Task.id t =? Flow.id node then cleared t else t)
           (Remote.tasks (remote s))
  /\ forall t : Task.t,
      In t (Remote.tasks (remote s')) ->
      Task.id t = Flow.id node ->
      In t (poolTasks (Remote.tasks (remote s'))).
Proof.
  intros s' cleared. subst s'.
  split; [reflexivity|]. split; [reflexivity|]. split; [reflexivity|].
  split; [reflexivity|].
  intros t Hin Hid.
  unfold poolTasks. rewrite classify_filter. simpl snd.
  apply filter_In. split; [exact Hin|].
  rewrite handleNodeDragStop_remote in Hin. simpl in Hin.
  apply in_map_iff in Hin. destruct Hin as [t0 [Ht0 _]].
  destruct (String.eqb_spec (Task.id t0) (Flow.id node)) as [_|Hne].
  - subst t. reflexivity.
  - subst t. contradiction.
Qed.

(** C9. Dropping a pooled task on a node with another id asks for the
    position of the task and then for one dependency whose task_id is
    the dropped task and whose depends_on_task_id is the node it was
    dropped on: the dropped task is the dependent, the drop target the
    prerequisite. *)
Theorem drop_on_node_direction (pool : list Task.t) (e : DropEvent)
    (task : Task.t) (targetNodeId : string) :
  In task pool ->
  Task.id task = sidebar_task e ->
  truthy (sidebar_task e) = true ->
  element_data_id e = Some targetNodeId ->
  truthy targetNodeId = true ->
  targetNodeId <> sidebar_task e ->
  handleDrop pool e
  = [ UpdateTaskReq (Task.id task) (place_at (flow_position e));
      CreateDependencyReq
        {| CreateDependency.task_id := Task.id task;
           CreateDependency.depends_on_task_id := targetNodeId |} ].
Proof.
  intros Hin Hid Htask Htarget Htruthy Hne. unfold handleDrop.
  rewrite Htask, Htarget, Htruthy. simpl.
  destruct (find (fun t => Task.id t =? sidebar_task e) pool) as [found|] eqn:Hfind.
  - apply String.eqb_neq in Hne. rewrite Hne, Hid. reflexivity.
  - pose proof (find_none _ _ Hfind task Hin) as Hnone. simpl in Hnone.
    apply String.eqb_neq in Hnone. contradiction.
Qed.

Lemma drop_on_node_direction_witness :
  handleDrop [pooled_task] (mkDrop "P" (Flow.mkPosition 40 60) (Some "X"))
  = [ UpdateTaskReq "P" (place_at (Flow.mkPosition 40 60));
      CreateDependencyReq (CreateDependency.mk "P" "X") ].
Proof.
  apply (drop_on_node_direction [pooled_task]
           (mkDrop "P" (Flow.mkPosition 40 60) (Some "X")) pooled_task "X").
  - simpl. tauto.
  - reflexivity.
  - reflexivity.
  - reflexivity.
  - reflexivity.
  - discriminate.
Defined.

(** C3, refuted as stated.  A connection from node A to itself is not
    stopped in the view: onConnect issues the creation request with both
    ends equal, and the refusal only comes back from the service, as the
    conflict alert. *)
Lemma self_connection_is_sent :
  onConnect (Flow.mkConnection (Some "A") (Some "A"))
  = [CreateDependencyReq (CreateDependency.mk "A" "A")]
  /\ Hook.alerts
       (hook (dispatch "e1" (onConnect (Flow.mkConnection (Some "A") (Some "A")))
                       initial))
     = [Hook.conflict_text].
Proof. split; reflexivity. Qed.

Lemma guard_self (E : list Graph.edge) (a : string) :
  Remote.guard E a a = Remote.SelfDependency.
Proof. unfold Remote.guard. now rewrite String.eqb_refl. Qed.

(** C3, amended.  A connection whose two ends are the same task is sent
    to the service as a creation request and refused there: the stored
    dependencies and the drawn edges stay what they were and the user
    gets the conflict alert.  Only the drop handler filters: it sends no
    creation request when the drop target is the dropped task itself. *)
Theorem self_connection_refused_by_service (a fresh : string) (s : state) :
  truthy a = true ->
  let requests := onConnect (Flow.mkConnection (Some a) (Some a)) in
  let s' := dispatch fresh requests s in
  requests = [CreateDependencyReq (CreateDependency.mk a a)]
  /\ remote s' = remote s
  /\ edges s' = edges s
  /\ Hook.alerts (hook s') = (Hook.alerts (hook s) ++ [Hook.conflict_text])%list
  /\ forall pool e data,
       element_data_id e = Some (sidebar_task e) ->
       ~ In (CreateDependencyReq data) (handleDrop pool e).
Proof.
  intros Ha requests s'. subst s' requests.
  unfold onConnect. simpl. rewrite Ha. simpl.
  unfold Remote.create, edges. simpl. rewrite guard_self. simpl.
  split; [reflexivity|].
  split; [destruct (remote s); reflexivity|].
  split; [reflexivity|].
  split; [reflexivity|].
  intros pool e data Hself. unfold handleDrop. rewrite Hself.
  rewrite String.eqb_refl, andb_false_r.
  destruct (negb (truthy (sidebar_task e))); [tauto|].
  destruct (find _ pool); [|tauto].
  intros [H | []]. discriminate.
Qed.

Lemma self_connection_refused_by_service_witness :
  truthy "A" = true
  /\ edges (dispatch "e1" (onConnect (Flow.mkConnection (Some "A") (Some "A")))
                     (run three_tasks initial))
     = edges (run three_tasks initial).
Proof.
  split; [reflexivity|].
  exact (proj1 (proj2 (proj2
           (self_connection_refused_by_service "A" "e1" (run three_tasks initial)
              eq_refl)))).
Defined.

End ViewFacts.


(** ** The layout wrapper *)

Module LayoutFacts.
Import Flow DagLayout LayoutPolicy Scenario.

Lemma fold_left_ids {T G : Type} (f : string -> G -> G) (nodes : list (Node T)) :
  forall g,
    fold_left (fun g node => f (id node) g) nodes g
    = fold_left (fun g v => f v g) (map id nodes) g.
Proof. induction nodes as [|n nodes IH]; intros g; simpl; [reflexivity | apply IH]. Qed.

(** The graph handed to the engine is built from the node ids, the edges
    and the options; positions and payloads play no part. *)
Lemma build_graph_ids {T U : Type} (nodes : list (Node T)) (nodes' : list (Node U))
    (edges : list Edge) (options : LayoutOptions) :
  map id nodes = map id nodes' ->
  build_graph nodes edges options = build_graph nodes' edges options.
Proof.
  intros Hids. unfold build_graph.
  rewrite (fold_left_ids (fun v g => Dagre.setNode v (Dagre.mkSize NODE_WIDTH NODE_HEIGHT) g) nodes).
  rewrite (fold_left_ids (fun v g => Dagre.setNode v (Dagre.mkSize NODE_WIDTH NODE_HEIGHT) g) nodes').
  rewrite Hids. reflexivity.
Qed.

Lemma apply_position_id {T : Type} (g : Dagre.Graph Dagre.NodeLayout) (node : Node T) :
  id (apply_position g node) = id node.
Proof. unfold apply_position. destruct (Dagre.node g (id node)); reflexivity. Qed.

Lemma apply_position_data {T : Type} (g : Dagre.Graph Dagre.NodeLayout) (node : Node T) :
  data (apply_position g node) = data node /\ type (apply_position g node) = type node.
Proof. unfold apply_position. destruct (Dagre.node g (id node)); split; reflexivity. Qed.

Lemma apply_position_twice {T : Type} (g : Dagre.Graph Dagre.NodeLayout) (node : Node T) :
  apply_position g (apply_position g node) = apply_position g node.
Proof.
  unfold apply_position at 2.
  destruct (Dagre.node g (id node)) as [l|] eqn:Hl; unfold apply_position; simpl;
    rewrite Hl; reflexivity.
Qed.

Lemma layouted_ids {T : Type} (layout : Dagre.engine) (nodes : list (Node T))
    (edges : list Edge) (options : LayoutOptions) :
  map id (getLayoutedElements layout nodes edges options) = map id nodes.
Proof.
  unfold getLayoutedElements. rewrite map_map.
  apply map_ext. intros node. apply apply_position_id.
Qed.

(** *** Node labels of the graph that is built *)

Lemma assoc_put {V : Type} (k k' : string) (v : V) (l : list (string * V)) :
  Dagre.assoc k' (Dagre.put k v l)
  = if k =? k' then Some v else Dagre.assoc k' l.
Proof.
  induction l as [|[k0 v0] l IH]; simpl.
  - reflexivity.
  - destruct (String.eqb_spec k0 k) as [->|Hne]; simpl.
    + destruct (k =? k'); reflexivity.
    + rewrite IH. destruct (String.eqb_spec k0 k') as [->|Hne'].
      * apply String.eqb_neq in Hne. rewrite String.eqb_sym, Hne. reflexivity.
      * reflexivity.
Qed.

Lemma node_setNode {L : Type} (v v' : string) (label : L) (g : Dagre.Graph L) :
  Dagre.node (Dagre.setNode v label g) v'
  = if v =? v' then Some label else Dagre.node g v'.
Proof.
  unfold Dagre.node, Dagre.setNode. simpl. rewrite assoc_put.
  destruct (v =? v'); reflexivity.
Qed.

Lemma node_touch {L : Type} (k v : string) (l : list (string * option L)) :
  match Dagre.assoc v (Dagre.touch k None l) with
  | Some (Some label) => Some label
  | _ => None
  end
  = match Dagre.assoc v l with
    | Some (Some label) => Some label
    | _ => None
    end.
Proof.
  induction l as [|[k0 v0] l IH]; simpl.
  - destruct (k =? v); reflexivity.
  - destruct (k0 =? k); simpl; destruct (k0 =? v); auto.
Qed.

Lemma node_ensureNode {L : Type} (k v : string) (g : Dagre.Graph L) :
  Dagre.node (Dagre.ensureNode k g) v = Dagre.node g v.
Proof. apply node_touch. Qed.

(** An edge never changes a label: an endpoint that is no node yet is
    created without one. *)
Lemma node_setEdge {L : Type} (a b v : string) (g : Dagre.Graph L) :
  Dagre.node (Dagre.setEdge a b g) v = Dagre.node g v.
Proof.
  unfold Dagre.setEdge.
  destruct (existsb (Graph.edge_eqb (a, b)) (Dagre.edges g)); [reflexivity|].
  transitivity (Dagre.node (Dagre.ensureNode b (Dagre.ensureNode a g)) v);
    [reflexivity|].
  now rewrite !node_ensureNode.
Qed.

Lemma node_fold_setEdge {L : Type} (edges : list Edge) (v : string) :
  forall g : Dagre.Graph L,
    Dagre.node
      (fold_left (fun g edge => Dagre.setEdge (source edge) (target edge) g) edges g) v
    = Dagre.node g v.
Proof.
  induction edges as [|e edges IH]; intros g; simpl; [reflexivity|].
  rewrite IH. apply node_setEdge.
Qed.

Lemma node_fold_setNode {T L : Type} (nodes : list (Node T)) (label : L) (v : string) :
  forall g : Dagre.Graph L,
    In v (map id nodes) \/ Dagre.node g v = Some label ->
    Dagre.node (fold_left (fun g node => Dagre.setNode (id node) label g) nodes g) v
    = Some label.
Proof.
  induction nodes as [|n nodes IH]; intros g H; simpl.
  - destruct H as [[] | H]. exact H.
  - apply IH. rewrite node_setNode.
    destruct (String.eqb_spec (id n) v) as [Heq|Hne]; [right; reflexivity|].
    destruct H as [[Heq | Hin] | H]; [contradiction | left; exact Hin | right; exact H].
Qed.

(** Every input node is a node of the graph, with the fixed extent. *)
Lemma node_build_graph {T : Type} (nodes : list (Node T)) (edges : list Edge)
    (options : LayoutOptions) (node : Node T) :
  In node nodes ->
  Dagre.node (build_graph nodes edges options) (id node)
  = Some (Dagre.mkSize 280 100).
Proof.
  intros Hin. unfold build_graph. rewrite node_fold_setEdge.
  apply node_fold_setNode. left. apply in_map. exact Hin.
Qed.

Lemma assoc_stack (label : Dagre.GraphLabel) (v : string)
    (l : list (string * option Dagre.NodeSize)) :
  forall i size,
    Dagre.assoc v l = Some (Some size) ->
    exists out, Dagre.assoc v (stack label i l) = Some (Some out).
Proof.
  induction l as [|[k [sz|]] l IH]; intros i size; simpl; [discriminate| |].
  - destruct (k =? v); [intros _; eexists; reflexivity | apply IH].
  - destruct (k =? v); [discriminate | apply IH].
Qed.

Lemma column_keeps_labels : keeps_labels column.
Proof.
  intros g v size. unfold Dagre.node, column. simpl.
  destruct (Dagre.assoc v (Dagre.nodes g)) as [[sz|]|] eqn:Hv; try discriminate.
  intros _.
  destruct (assoc_stack
              (or_default (Dagre.graph_label g)
                 (Dagre.mkGraphLabel Dagre.TB 50 50 0 0))
              v (Dagre.nodes g) 0%Z sz Hv) as [out Hout].
  exists out. now rewrite Hout.
Qed.

Section Engine.

(** dagre.layout, the edges and the options are fixed throughout; the
    payload type of the nodes is arbitrary. *)
Context {T : Type}.
Variable layout : Dagre.engine.
Variable edges : list Edge.
Variable options : LayoutOptions.

(** C5. Laying out what the layout returned, with the same edges and
    options, returns it again: the graph handed to the engine is rebuilt
    from the same ids, so every node gets the same coordinates. *)
Theorem relayout_is_idempotent (nodes : list (Node T)) :
  getLayoutedElements layout
    (getLayoutedElements layout nodes edges options) edges options
  = getLayoutedElements layout nodes edges options.
Proof.
  unfold getLayoutedElements at 1.
  rewrite (build_graph_ids
             (getLayoutedElements layout nodes edges options) nodes edges options
             (layouted_ids layout nodes edges options)).
  unfold getLayoutedElements. rewrite map_map.
  apply map_ext. intros node. apply apply_position_twice.
Qed.

(** C6. The layout returns the input nodes, in order, each with one
    position: same ids, same payloads and types, hence no id that the
    input lacks, not even one that only an edge mentions. *)
Theorem layout_keeps_node_set (nodes : list (Node T)) :
  let out := getLayoutedElements layout nodes edges options in
  map id out = map id nodes
  /\ map data out = map data nodes
  /\ map type out = map type nodes
  /\ length out = length nodes
  /\ forall v : string, In v (map id out) <-> In v (map id nodes).
Proof.
  intros out. subst out.
  pose proof (layouted_ids layout nodes edges options) as Hids.
  split; [exact Hids|].
  split; [unfold getLayoutedElements; rewrite map_map; apply map_ext;
          intros node; apply apply_position_data|].
  split; [unfold getLayoutedElements; rewrite map_map; apply map_ext;
          intros node; apply apply_position_data|].
  split; [unfold getLayoutedElements; apply length_map|].
  intros v. rewrite Hids. tauto.
Qed.

Section KeepsLabels.

Hypothesis layout_keeps_labels : keeps_labels layout.

Lemma layouted_label (nodes : list (Node T)) (node : Node T) :
  In node nodes ->
  exists l,
    Dagre.node (layout (build_graph nodes edges options)) (id node) = Some l.
Proof.
  intros Hin. eapply layout_keeps_labels. apply node_build_graph. exact Hin.
Qed.

(** C4, amended.  The wrapper has no cycle check and no failure: for any
    edges, with or without a directed cycle, and an engine that keeps
    the labelled nodes, every input node comes back at the centre the
    engine computed for its id, moved by half the node extent (140, 50),
    whatever position it had before. *)
Theorem layout_has_no_cycle_check (nodes : list (Node T)) :
  Forall2
    (fun node out =>
       exists l,
         Dagre.node (layout (build_graph nodes edges options)) (id node) = Some l
         /\ out = placed_by l node)
    nodes (getLayoutedElements layout nodes edges options).
Proof.
  unfold getLayoutedElements.
  pose proof (layouted_label nodes) as Hlabel.
  set (g := layout (build_graph nodes edges options)) in *.
  clearbody g. induction nodes as [|n nodes' IH]; simpl; constructor.
  - destruct (Hlabel n) as [l Hl]; [simpl; tauto|].
    exists l. split; [exact Hl|]. unfold apply_position. rewrite Hl. reflexivity.
  - apply IH. intros node Hin. apply Hlabel. simpl. tauto.
Qed.

End KeepsLabels.

End Engine.

(** C4, refuted as stated.  Two nodes that depend on each other and sit
    at the origin, outside the margins of any layout: the wrapper does
    not fail and does not hand back the positions it was given. *)
Lemma layout_moves_nodes_of_a_cycle :
  Graph.has_cycle (Flow.graph knot_edges)
  /\ getLayoutedElements column knot_nodes knot_edges no_options
     = [ mkNode "A" "task" (mkPosition 50 50) tt;
         mkNode "B" "task" (mkPosition 50 250) tt ]
  /\ getLayoutedElements column knot_nodes knot_edges no_options <> knot_nodes.
Proof.
  split; [|split; [reflexivity | discriminate]].
  exists "A", "B". split; [simpl; tauto|].
  apply GraphFacts.path_edge. simpl. tauto.
Qed.

Lemma layout_has_no_cycle_check_witness :
  keeps_labels column
  /\ Forall2
       (fun node out =>
          exists l,
            Dagre.node (column (build_graph knot_nodes knot_edges no_options))
                       (id node) = Some l
            /\ out = placed_by l node)
       knot_nodes (getLayoutedElements column knot_nodes knot_edges no_options).
Proof.
  split; [exact column_keeps_labels|].
  exact (layout_has_no_cycle_check column knot_edges no_options
           column_keeps_labels knot_nodes).
Defined.

End LayoutFacts.


(** ** Edge ids, the delete dialog and removals from the canvas *)

Module DeleteFacts.
Import Flow View EdgeId DeleteDialog EdgeChanges.

Lemma startsWith_split (p : string) :
  forall s, startsWith s p = true -> s = p ++ slice (String.length p) s.
Proof.
  induction p as [|c p IH]; intros s; simpl; [reflexivity|].
  destruct s as [|d s]; [discriminate|].
  intros H. apply andb_prop in H. destruct H as [Hc Hs].
  apply Ascii.eqb_eq in Hc. subst d. f_equal. apply IH. exact Hs.
Qed.

Lemma truthy_spec (s : string) : truthy s = true <-> s <> "".
Proof.
  unfold truthy. rewrite negb_true_iff. apply String.eqb_neq.
Qed.

Lemma getDependencyId_created (d : string) :
  getDependencyIdFromEdgeId ("dep-" ++ d) = Some d.
Proof. reflexivity. Qed.

Lemma getDependencyId_some (edgeId dependencyId : string) :
  getDependencyIdFromEdgeId edgeId = Some dependencyId ->
  edgeId = "dep-" ++ dependencyId.
Proof.
  unfold getDependencyIdFromEdgeId.
  destruct (startsWith edgeId "dep-") eqn:Hp; [|discriminate].
  intros H. inversion H; subst dependencyId.
  exact (startsWith_split "dep-" edgeId Hp).
Qed.

(** The edge id is the prefix followed by what the parser returns. *)
Theorem edge_id_of_parsed_id (edgeId dependencyId : string) :
  getDependencyIdFromEdgeId edgeId = Some dependencyId ->
  edgeId = "dep-" ++ dependencyId.
Proof.
  unfold getDependencyIdFromEdgeId. intros H.
  destruct (startsWith edgeId "dep-") eqn:Hprefix; [|discriminate].
  injection H as <-.
  exact (startsWith_split "dep-" edgeId Hprefix).
Qed.

Lemma edge_id_of_parsed_id_witness :
  getDependencyIdFromEdgeId "dep-42" = Some "42" /\ "dep-42" = "dep-" ++ "42".
Proof.
  split; [reflexivity|].
  exact (edge_id_of_parsed_id "dep-42" "42" eq_refl).
Defined.

Lemma edge_ids_created (deps : list TaskDependency.t) :
  map edge_id (createEdges deps)
  = map (fun d => "dep-" ++ TaskDependency.id d) deps.
Proof. unfold createEdges. rewrite map_map. reflexivity. Qed.

(** Dependencies with distinct ids are drawn as edges with distinct ids,
    and every edge id leads back to the id of its dependency. *)
Theorem drawn_edge_ids_are_distinct (deps : list TaskDependency.t) :
  NoDup (map TaskDependency.id deps) ->
  NoDup (map edge_id (createEdges deps))
  /\ map getDependencyIdFromEdgeId (map edge_id (createEdges deps))
     = map (fun d => Some (TaskDependency.id d)) deps.
Proof.
  intros Hnodup. rewrite edge_ids_created. split.
  - rewrite <- (map_map TaskDependency.id (fun i => "dep-" ++ i)).
    apply NoDup_map_NoDup_ForallPairs; [|exact Hnodup].
    intros a b _ _ H. inversion H. reflexivity.
  - rewrite map_map. reflexivity.
Qed.

Lemma drawn_edge_ids_are_distinct_witness :
  let deps := [TaskDependency.mk "1" "B" "A"; TaskDependency.mk "2" "C" "B"] in
  NoDup (map TaskDependency.id deps)
  /\ NoDup (map edge_id (createEdges deps)).
Proof.
  intros deps.
  assert (NoDup (map TaskDependency.id deps)) as H.
  { repeat constructor; simpl; intuition discriminate. }
  split; [exact H | exact (proj1 (drawn_edge_ids_are_distinct deps H))].
Defined.

(** Confirming the dialog always closes it and forgets the edge.  It
    asks for a deletion exactly when the edge id is the prefix followed
    by a non-empty dependency id, and then for that dependency. *)
Theorem confirm_delete_requests (edgeId : string) (st : state) :
  fst (confirmDelete (handleEdgeDelete edgeId st)) = closed
  /\ ((exists d, d <> "" /\ edgeId = "dep-" ++ d
                 /\ snd (confirmDelete (handleEdgeDelete edgeId st))
                    = [DeleteDependencyReq d])
      \/ (snd (confirmDelete (handleEdgeDelete edgeId st)) = []
          /\ forall d, d <> "" -> edgeId <> "dep-" ++ d)).
Proof.
  split; [reflexivity|]. unfold confirmDelete, handleEdgeDelete. simpl.
  destruct (truthy edgeId) eqn:He.
  - destruct (getDependencyIdFromEdgeId edgeId) as [d|] eqn:Hd.
    + pose proof (getDependencyId_some edgeId d Hd) as Heq.
      destruct (truthy d) eqn:Ht.
      * left. exists d. apply truthy_spec in Ht. auto.
      * right. split; [reflexivity|]. intros d' Hd' Heq'.
        rewrite Heq in Heq'. inversion Heq'; subst d'.
        apply truthy_spec in Hd'. congruence.
    + right. split; [reflexivity|]. intros d' _ Heq'.
      subst edgeId. cbn in Hd. discriminate.
  - right. split; [reflexivity|]. intros d' _ Heq'.
    subst edgeId. discriminate.
Qed.

(** Confirming the deletion of a drawn edge asks the service to delete
    the dependency the edge was drawn from, and nothing else. *)
Theorem confirm_delete_of_drawn_edge (deps : list TaskDependency.t)
    (e : Edge) (st : state) :
  In e (createEdges deps) ->
  exists d,
    In d deps
    /\ source e = TaskDependency.depends_on_task_id d
    /\ target e = TaskDependency.task_id d
    /\ (TaskDependency.id d <> "" ->
        confirmDelete (handleEdgeDelete (edge_id e) st)
        = (closed, [DeleteDependencyReq (TaskDependency.id d)])).
Proof.
  intros Hin. apply in_map_iff in Hin. destruct Hin as [d [He Hd]].
  exists d. subst e. simpl. repeat split; [exact Hd|].
  intros Hid. unfold confirmDelete, handleEdgeDelete, createEdgeIdFromDependency.
  simpl. apply truthy_spec in Hid. rewrite Hid. reflexivity.
Qed.

Lemma confirm_delete_of_drawn_edge_witness :
  exists d,
    In d [TaskDependency.mk "1" "B" "A"]
    /\ source (mkEdge "dep-1" "A" "B" "dependency") = TaskDependency.depends_on_task_id d
    /\ target (mkEdge "dep-1" "A" "B" "dependency") = TaskDependency.task_id d
    /\ (TaskDependency.id d <> "" ->
        confirmDelete (handleEdgeDelete "dep-1" closed)
        = (closed, [DeleteDependencyReq (TaskDependency.id d)])).
Proof.
  apply (confirm_delete_of_drawn_edge [TaskDependency.mk "1" "B" "A"]
           (mkEdge "dep-1" "A" "B" "dependency") closed).
  simpl. tauto.
Defined.

Lemma removal_requests_drawn (deps : list TaskDependency.t) :
  Forall (fun d => TaskDependency.id d <> "") deps ->
  flat_map removal_request (map (fun e => Remove (edge_id e)) (createEdges deps))
  = map (fun d => DeleteDependencyReq (TaskDependency.id d)) deps.
Proof.
  induction 1 as [|d deps Hd _ IH]; [reflexivity|].
  simpl. rewrite IH. apply truthy_spec in Hd.
  unfold createEdgeIdFromDependency. simpl. rewrite Hd. reflexivity.
Qed.

Lemma filter_all {A : Type} (f : A -> bool) (l : list A) :
  Forall (fun a => f a = true) l -> filter f l = l.
Proof. induction 1 as [|a l Ha _ IH]; simpl; [|rewrite Ha, IH]; reflexivity. Qed.

Lemma filter_none {A : Type} (f : A -> bool) (l : list A) :
  Forall (fun a => f a = false) l -> filter f l = [].
Proof. induction 1 as [|a l Ha _ IH]; simpl; [|rewrite Ha, IH]; reflexivity. Qed.

(** A removal on the canvas is never applied to the edges the view
    holds: what reaches the default handler contains no removal.
    Removing every drawn edge instead asks the service to delete every
    dependency, in order, and hands the default handler nothing. *)
Theorem removals_go_to_the_service :
  (forall changes forwarded,
      fst (onEdgesChange changes) = Some forwarded ->
      forwarded <> [] /\ Forall (fun c => is_remove c = false) forwarded)
  /\ (forall deps,
        Forall (fun d => TaskDependency.id d <> "") deps ->
        onEdgesChange (map (fun e => Remove (edge_id e)) (createEdges deps))
        = (None, map (fun d => DeleteDependencyReq (TaskDependency.id d)) deps)).
Proof.
  split.
  - intros changes forwarded. unfold onEdgesChange. simpl.
    destruct (filter (fun c => negb (is_remove c)) changes) as [|c cs] eqn:Hf;
      simpl; [discriminate|].
    intros H. inversion H; subst forwarded. split; [discriminate|].
    rewrite <- Hf. apply Forall_forall. intros x Hx.
    apply filter_In in Hx. destruct Hx as [_ Hx].
    now apply negb_true_iff in Hx.
  - intros deps Hids. unfold onEdgesChange.
    set (changes := map (fun e => Remove (edge_id e)) (createEdges deps)).
    assert (Forall (fun c => is_remove c = true) changes) as Hall.
    { unfold changes. apply Forall_forall. intros c Hc.
      apply in_map_iff in Hc. destruct Hc as [e [<- _]]. reflexivity. }
    rewrite (filter_all is_remove changes Hall).
    rewrite (filter_none (fun c => negb (is_remove c)) changes).
    + simpl. f_equal. apply removal_requests_drawn. exact Hids.
    + eapply Forall_impl; [|exact Hall]. intros c Hc. simpl. now rewrite Hc.
Qed.

Lemma removals_go_to_the_service_witness :
  fst (onEdgesChange [Select "dep-1" true; Remove "dep-2"])
  = Some [Select "dep-1" true]
  /\ Forall (fun c => is_remove c = false) [Select "dep-1" true]
  /\ onEdgesChange
       (map (fun e => Remove (edge_id e))
            (createEdges [TaskDependency.mk "1" "B" "A"]))
     = (None, [DeleteDependencyReq "1"]).
Proof.
  split; [reflexivity|]. split.
  - exact (proj2 (proj1 removals_go_to_the_service
                    [Select "dep-1" true; Remove "dep-2"]
                    [Select "dep-1" true] eq_refl)).
  - apply (proj2 removals_go_to_the_service [TaskDependency.mk "1" "B" "A"]).
    repeat constructor. discriminate.
Defined.

End DeleteFacts.


(** ** Connecting and dropping *)

Module GestureFacts.
Import Flow View.

(** A connection with a missing or empty end asks for nothing.  Any
    other connection asks for one dependency, and the edge drawn for a
    dependency with these two ends runs from the source of the
    connection to its target. *)
Theorem connection_is_drawn_as_dragged (connection : Connection) :
  match conn_source connection, conn_target connection with
  | Some source, Some target =>
      if truthy source && truthy target then
        exists data,
          onConnect connection = [CreateDependencyReq data]
          /\ forall id,
              Flow.graph
                (createEdges
                   [TaskDependency.mk id (CreateDependency.task_id data)
                      (CreateDependency.depends_on_task_id data)])
              = [(source, target)]
      else onConnect connection = []
  | _, _ => onConnect connection = []
  end.
Proof.
  unfold onConnect.
  destruct (conn_source connection) as [source|];
    destruct (conn_target connection) as [target|]; try reflexivity.
  destruct (truthy source && truthy target); [|reflexivity].
  eexists. split; [reflexivity|]. intros id. reflexivity.
Qed.

Lemma handleDrop_pooled (pool : list Task.t) (e : DropEvent) :
  handleDrop pool e <> [] ->
  sidebar_task e <> ""
  /\ exists task, In task pool /\ Task.id task = sidebar_task e.
Proof.
  unfold handleDrop.
  destruct (truthy (sidebar_task e)) eqn:Htask; simpl; [|congruence].
  destruct (find (fun t => Task.id t =? sidebar_task e) pool) as [task|] eqn:Hfind;
    [|congruence].
  intros _. split; [apply DeleteFacts.truthy_spec; exact Htask|].
  apply find_some in Hfind. destruct Hfind as [Hin Hid].
  exists task. split; [exact Hin | apply String.eqb_eq; exact Hid].
Qed.

(** A drop asks for nothing, for the placement of the dropped task, or
    for the placement followed by one dependency on a node with another,
    non-empty id.  It asks for nothing unless the dropped id is the id
    of a task in the pool. *)
Theorem drop_requests_shape (pool : list Task.t) (e : DropEvent) :
  let placement := UpdateTaskReq (sidebar_task e) (place_at (flow_position e)) in
  (handleDrop pool e = []
   \/ handleDrop pool e = [placement]
   \/ exists targetNodeId,
        targetNodeId <> "" /\ targetNodeId <> sidebar_task e
        /\ element_data_id e = Some targetNodeId
        /\ handleDrop pool e
           = [placement;
              CreateDependencyReq (CreateDependency.mk (sidebar_task e) targetNodeId)])
  /\ (handleDrop pool e <> [] ->
      sidebar_task e <> ""
      /\ exists task, In task pool /\ Task.id task = sidebar_task e).
Proof.
  intros placement. split; [|apply handleDrop_pooled].
  unfold handleDrop. fold placement.
  destruct (truthy (sidebar_task e)) eqn:Htask; simpl; [|tauto].
  destruct (find (fun t => Task.id t =? sidebar_task e) pool) as [task|] eqn:Hfind;
    [|tauto].
  destruct (element_data_id e) as [targetNodeId|]; [|tauto].
  destruct (truthy targetNodeId) eqn:Ht; simpl; [|tauto].
  destruct (String.eqb_spec targetNodeId (sidebar_task e)) as [|Hne]; simpl; [tauto|].
  right. right. exists targetNodeId.
  apply DeleteFacts.truthy_spec in Ht. auto.
Qed.

Lemma drop_requests_shape_witness :
  handleDrop [Scenario.pooled_task] (mkDrop "P" (mkPosition 40 60) (Some "X")) <> []
  /\ exists task,
      In task [Scenario.pooled_task] /\ Task.id task = "P".
Proof.
  assert (handleDrop [Scenario.pooled_task] (mkDrop "P" (mkPosition 40 60) (Some "X"))
          <> []) as H by discriminate.
  split; [exact H|].
  exact (proj2 (proj2 (drop_requests_shape [Scenario.pooled_task]
                         (mkDrop "P" (mkPosition 40 60) (Some "X"))) H)).
Defined.

Lemma not_in_pool (tasks : list Task.t) (task other : Task.t) :
  NoDup (map Task.id tasks) ->
  In task tasks -> has_position task = true ->
  In other (poolTasks tasks) -> Task.id other <> Task.id task.
Proof.
  intros Hnodup Hin Hpos Hother Hid.
  unfold poolTasks in Hother. rewrite ViewFacts.classify_filter in Hother.
  simpl in Hother. apply filter_In in Hother. destruct Hother as [Hin' Hneg].
  assert (other = task) as ->; [|rewrite Hpos in Hneg; discriminate].
  clear Hpos Hneg. induction tasks as [|t tasks IH]; [contradiction|].
  simpl in Hnodup. inversion Hnodup as [|? ? Hnot Hrest]; subst.
  destruct Hin as [-> | Hin], Hin' as [-> | Hin']; try reflexivity.
  - exfalso. apply Hnot. rewrite <- Hid. apply in_map. exact Hin'.
  - exfalso. apply Hnot. rewrite Hid. apply in_map. exact Hin.
  - exact (IH Hrest Hin Hin').
Qed.

(** With distinct task ids, dropping the id of a task that is already
    placed asks for nothing: only pooled tasks can be dropped. *)
Theorem placed_task_cannot_be_dropped (tasks : list Task.t) (task : Task.t)
    (e : DropEvent) :
  NoDup (map Task.id tasks) ->
  In task tasks ->
  has_position task = true ->
  sidebar_task e = Task.id task ->
  handleDrop (poolTasks tasks) e = [].
Proof.
  intros Hnodup Hin Hpos Hid.
  pose proof (handleDrop_pooled (poolTasks tasks) e) as H.
  destruct (handleDrop (poolTasks tasks) e) as [|r rs]; [reflexivity|].
  destruct H as [_ [other [Hother Hsame]]]; [discriminate|].
  exfalso. apply (not_in_pool tasks task other Hnodup Hin Hpos Hother).
  congruence.
Qed.

Lemma placed_task_cannot_be_dropped_witness :
  handleDrop (poolTasks [Scenario.placed_task; Scenario.pooled_task])
             (mkDrop "X" (mkPosition 40 60) None) = [].
Proof.
  apply (placed_task_cannot_be_dropped
           [Scenario.placed_task; Scenario.pooled_task] Scenario.placed_task).
  - repeat constructor; simpl; intuition discriminate.
  - simpl. tauto.
  - reflexivity.
  - reflexivity.
Defined.

End GestureFacts.


(** ** Sorting *)

Module ArraySortFacts.

Section Sort.

Context {A : Type}.
Variable compare : A -> A -> Z.

Local Abbreviation insert := (ArraySort.insert compare).
Local Abbreviation sort := (ArraySort.sort compare).
Local Abbreviation before := (ArraySort.before compare).

Lemma insert_perm (a : A) (l : list A) : Permutation (insert a l) (a :: l).
Proof.
  induction l as [|b l IH]; simpl; [apply Permutation_refl|].
  destruct (compare a b <=? 0)%Z; [apply Permutation_refl|].
  eapply perm_trans; [apply perm_skip; exact IH | apply perm_swap].
Qed.

Lemma sort_perm (l : list A) : Permutation (sort l) l.
Proof.
  induction l as [|a l IH]; simpl; [apply perm_nil|].
  eapply perm_trans; [apply insert_perm | apply perm_skip; exact IH].
Qed.

Hypothesis compare_total : forall a b, (0 < compare a b)%Z -> (compare b a <= 0)%Z.
Hypothesis compare_trans :
  forall a b c, (compare a b <= 0)%Z -> (compare b c <= 0)%Z -> (compare a c <= 0)%Z.

Lemma insert_sorted (a : A) (l : list A) :
  StronglySorted before l -> StronglySorted before (insert a l).
Proof.
  induction 1 as [|b l Hs IH Hb]; simpl.
  - constructor; constructor.
  - destruct (Z.leb_spec (compare a b) 0) as [Hle | Hgt].
    + constructor; [constructor; assumption|].
      constructor; [exact Hle|].
      eapply Forall_impl; [|exact Hb]. intros c Hc.
      exact (compare_trans a b c Hle Hc).
    + constructor; [exact IH|].
      apply (Permutation_Forall (Permutation_sym (insert_perm a l))).
      constructor; [exact (compare_total a b Hgt) | exact Hb].
Qed.

Lemma sort_sorted (l : list A) : StronglySorted before (sort l).
Proof.
  induction l as [|a l IH]; simpl; [constructor | apply insert_sorted; exact IH].
Qed.

End Sort.

End ArraySortFacts.


(** ** The first placement of the nodes: eight to a row *)

Module GridFacts.
Import Flow GridLayout.

Lemma nodes_from_data (l : list Task.t) :
  forall i, map data (nodes_from i l) = l.
Proof. induction l as [|t l IH]; intros i; simpl; [|rewrite IH]; reflexivity. Qed.

Lemma nodes_from_id (l : list Task.t) :
  forall i, map id (nodes_from i l) = map Task.id l.
Proof. induction l as [|t l IH]; intros i; simpl; [|rewrite IH]; reflexivity. Qed.

Lemma nodes_from_saved (l : list Task.t) :
  Forall (fun t => View.has_position t = true) l ->
  forall i,
    Forall (fun n => Task.dag_position_x (data n) = Some (x (position n))
                     /\ Task.dag_position_y (data n) = Some (y (position n)))
           (nodes_from i l).
Proof.
  induction 1 as [|t l Ht _ IH]; intros i; simpl; constructor; [|apply IH].
  unfold View.has_position in Ht. unfold node_at. simpl.
  destruct (Task.dag_position_x t), (Task.dag_position_y t);
    try discriminate. split; reflexivity.
Qed.

(** The cell of an index determines the index. *)
Lemma cell_injective (i j : Z) :
  mkPosition (i mod 8 * 340) (i / 8 * 120) = mkPosition (j mod 8 * 340) (j / 8 * 120) ->
  i = j.
Proof.
  intros H. inversion H as [[Hx Hy]].
  rewrite (Z.div_mod i 8), (Z.div_mod j 8) by lia. lia.
Qed.

Lemma nodes_from_cells (l : list Task.t) :
  Forall (fun t => Task.dag_position_x t = None /\ Task.dag_position_y t = None) l ->
  forall i p,
    In p (map position (nodes_from i l)) ->
    exists j, (i <= j < i + Z.of_nat (length l))%Z
              /\ p = mkPosition (j mod 8 * 340) (j / 8 * 120).
Proof.
  induction 1 as [|t l [Hx Hy] _ IH]; intros i p; simpl; [tauto|].
  intros [Hp | Hp].
  - exists i. split; [lia|]. subst p. unfold node_at. simpl.
    rewrite Hx, Hy. reflexivity.
  - destruct (IH _ _ Hp) as [j [Hj Hpj]]. exists j. split; [lia | exact Hpj].
Qed.

Lemma nodes_from_apart (l : list Task.t) :
  Forall (fun t => Task.dag_position_x t = None /\ Task.dag_position_y t = None) l ->
  forall i, NoDup (map position (nodes_from i l)).
Proof.
  intros Hl. induction Hl as [|t l [Hx Hy] Hl IH]; intros i; simpl; constructor.
  - intros Hin. destruct (nodes_from_cells l Hl _ _ Hin) as [j [Hj Hpj]].
    unfold node_at in Hpj. simpl in Hpj. rewrite Hx, Hy in Hpj. simpl in Hpj.
    apply cell_injective in Hpj. lia.
  - apply IH.
Qed.

Section Dates.

Variable getTime : string -> Z.

Local Abbreviation time := (fun t : Task.t => getTime (Task.created_at t)).

Lemma by_creation_total (a b : Task.t) :
  (0 < by_creation getTime a b)%Z -> (by_creation getTime b a <= 0)%Z.
Proof. unfold by_creation. lia. Qed.

Lemma by_creation_trans (a b c : Task.t) :
  (by_creation getTime a b <= 0)%Z -> (by_creation getTime b c <= 0)%Z ->
  (by_creation getTime a c <= 0)%Z.
Proof. unfold by_creation. lia. Qed.

Lemma insert_same_time (t : Z) (a : Task.t) (l : list Task.t) :
  filter (fun b => (time b =? t)%Z) (ArraySort.insert (by_creation getTime) a l)
  = if (time a =? t)%Z then a :: filter (fun b => (time b =? t)%Z) l
    else filter (fun b => (time b =? t)%Z) l.
Proof.
  induction l as [|b l IH]; simpl; [reflexivity|].
  destruct (Z.leb_spec (by_creation getTime a b) 0) as [Hle | Hgt]; simpl.
  - reflexivity.
  - rewrite IH. unfold by_creation in Hgt.
    destruct (Z.eqb_spec (time a) t) as [Ha|Ha]; [|reflexivity].
    destruct (Z.eqb_spec (time b) t) as [Hb|Hb]; [lia | reflexivity].
Qed.

Lemma sort_same_time (t : Z) (l : list Task.t) :
  filter (fun b => (time b =? t)%Z) (ArraySort.sort (by_creation getTime) l)
  = filter (fun b => (time b =? t)%Z) l.
Proof.
  induction l as [|a l IH]; simpl; [reflexivity|].
  rewrite insert_same_time, IH. reflexivity.
Qed.

Lemma sorted_by_time (l : list Task.t) :
  StronglySorted (ArraySort.before (by_creation getTime)) l ->
  StronglySorted (fun a b => (time a <= time b)%Z) l.
Proof.
  induction 1 as [|a l _ IH Ha]; constructor; [exact IH|].
  eapply Forall_impl; [|exact Ha].
  intros b. unfold ArraySort.before, by_creation. lia.
Qed.

(** The nodes are the tasks, none lost and none added, a node carrying
    the id of its task; they stand oldest first, and tasks created at
    the same time keep the order they came in. *)
Theorem layout_nodes_oldest_first (tasks : list Task.t) :
  let nodes := layoutNodes getTime tasks in
  Permutation (map data nodes) tasks
  /\ map id nodes = map Task.id (map data nodes)
  /\ StronglySorted (fun a b => (time a <= time b)%Z) (map data nodes)
  /\ forall t : Z,
      filter (fun b => (time b =? t)%Z) (map data nodes)
      = filter (fun b => (time b =? t)%Z) tasks.
Proof.
  intros nodes. subst nodes. unfold layoutNodes.
  rewrite nodes_from_data, nodes_from_id.
  split; [apply ArraySortFacts.sort_perm|]. split; [reflexivity|].
  split.
  - apply sorted_by_time.
    apply ArraySortFacts.sort_sorted; [apply by_creation_total | apply by_creation_trans].
  - intros t. apply sort_same_time.
Qed.

(** The view lays out the placed tasks only, so every node it creates
    sits at the saved position of its task: the computed cell is never
    used there. *)
Theorem placed_nodes_sit_where_saved (tasks : list Task.t) :
  Forall (fun n => Task.dag_position_x (data n) = Some (x (position n))
                   /\ Task.dag_position_y (data n) = Some (y (position n)))
         (layoutNodes getTime (View.dagTasks tasks)).
Proof.
  unfold layoutNodes. apply nodes_from_saved.
  apply (Permutation_Forall
           (Permutation_sym (ArraySortFacts.sort_perm (by_creation getTime) _))).
  unfold View.dagTasks. rewrite ViewFacts.classify_filter. simpl.
  apply Forall_forall. intros t Ht. apply filter_In in Ht. tauto.
Qed.

(** Tasks without a saved position get cells of their own: no two nodes
    share a position, and no node lies beyond the eighth column. *)
Theorem unsaved_nodes_do_not_overlap (tasks : list Task.t) :
  Forall (fun t => Task.dag_position_x t = None /\ Task.dag_position_y t = None)
         tasks ->
  NoDup (map position (layoutNodes getTime tasks))
  /\ Forall (fun p => (0 <= x p <= 7 * 340)%Z /\ (0 <= y p)%Z)
            (map position (layoutNodes getTime tasks)).
Proof.
  intros Hunsaved. unfold layoutNodes.
  assert (Forall (fun t => Task.dag_position_x t = None /\ Task.dag_position_y t = None)
                 (ArraySort.sort (by_creation getTime) tasks)) as Hsorted.
  { apply (Permutation_Forall
             (Permutation_sym (ArraySortFacts.sort_perm (by_creation getTime) tasks))).
    exact Hunsaved. }
  split; [apply nodes_from_apart; exact Hsorted|].
  apply Forall_forall. intros p Hp.
  destruct (nodes_from_cells _ Hsorted _ _ Hp) as [j [Hj ->]]. simpl.
  pose proof (Z.mod_pos_bound j 8). pose proof (Z.div_pos j 8). lia.
Qed.

End Dates.

Lemma unsaved_nodes_do_not_overlap_witness :
  let tasks := [Scenario.pooled_task;
                Task.mk "Q" "plan" None "todo" "2025-01-05" None None] in
  Forall (fun t => Task.dag_position_x t = None /\ Task.dag_position_y t = None)
         tasks
  /\ NoDup (map position (layoutNodes (fun s => Z.of_nat (String.length s)) tasks)).
Proof.
  intros tasks.
  assert (Forall (fun t => Task.dag_position_x t = None /\ Task.dag_position_y t = None)
                 tasks) as H by (repeat constructor).
  split; [exact H|].
  exact (proj1 (unsaved_nodes_do_not_overlap
                  (fun s => Z.of_nat (String.length s)) tasks H)).
Defined.

End GridFacts.


(** ** The first placement of the nodes: one column per status *)

Module StatusFacts.
Import Flow StatusLayout.

Local Abbreviation in_progress := (fun t : Task.t => Task.status t =? "inprogress").
Local Abbreviation is_done := (fun t : Task.t => Task.status t =? "done").
Local Abbreviation other :=
  (fun t : Task.t =>
     negb (Task.status t =? "inprogress") && negb (Task.status t =? "done")).

Lemma group_tasks_from (tasks : list Task.t) :
  forall g,
    fold_left push tasks g
    = mkGroups (todo g ++ filter other tasks)
               (inprogress g ++ filter in_progress tasks)
               (done g ++ filter is_done tasks).
Proof.
  induction tasks as [|t tasks IH]; intros g; simpl.
  - rewrite !app_nil_r. destruct g; reflexivity.
  - rewrite IH. unfold push.
    destruct (String.eqb_spec (Task.status t) "inprogress") as [Hs|Hs]; simpl.
    + rewrite Hs. simpl. rewrite <- app_assoc. reflexivity.
    + destruct (Task.status t =? "done"); simpl; rewrite <- app_assoc; reflexivity.
Qed.

Lemma group_tasks_filter (tasks : list Task.t) :
  group_tasks tasks
  = mkGroups (filter other tasks) (filter in_progress tasks) (filter is_done tasks).
Proof. unfold group_tasks. now rewrite group_tasks_from. Qed.

Lemma groups_perm (tasks : list Task.t) :
  Permutation (filter other tasks ++ filter in_progress tasks ++ filter is_done tasks)
              tasks.
Proof.
  induction tasks as [|t tasks IH]; simpl; [apply perm_nil|].
  destruct (String.eqb_spec (Task.status t) "inprogress") as [Hs|Hs]; simpl.
  - rewrite Hs. simpl. apply Permutation_sym, Permutation_cons_app.
    apply Permutation_sym. exact IH.
  - destruct (Task.status t =? "done"); simpl.
    + rewrite app_assoc. apply Permutation_sym, Permutation_cons_app.
      rewrite <- app_assoc. apply Permutation_sym. exact IH.
    + apply perm_skip. exact IH.
Qed.

Lemma column_from_data (c : Z) (l : list Task.t) :
  forall r, map data (column_from c r l) = l.
Proof. induction l as [|t l IH]; intros r; simpl; [|rewrite IH]; reflexivity. Qed.

Lemma column_from_id (c : Z) (l : list Task.t) :
  forall r, map id (column_from c r l) = map Task.id l.
Proof. induction l as [|t l IH]; intros r; simpl; [|rewrite IH]; reflexivity. Qed.

Lemma layoutNodes_data (tasks : list Task.t) :
  map data (layoutNodes tasks)
  = (filter other tasks ++ filter in_progress tasks ++ filter is_done tasks)%list.
Proof.
  unfold layoutNodes. rewrite group_tasks_filter. simpl.
  rewrite !map_app, !column_from_data. reflexivity.
Qed.

(** No task is lost or doubled, whatever its status: the nodes are the
    tasks, a node carrying the id of its task.  First come the tasks
    that are neither in progress nor done, then those in progress, then
    those done, each part in the order of the task list. *)
Theorem status_layout_keeps_tasks (tasks : list Task.t) :
  Forall (fun t => In (Task.status t) task_statuses) tasks ->
  Permutation (map data (layoutNodes tasks)) tasks
  /\ map id (layoutNodes tasks) = map Task.id (map data (layoutNodes tasks))
  /\ map data (layoutNodes tasks)
     = (filter other tasks ++ filter in_progress tasks ++ filter is_done tasks)%list.
Proof.
  intros _. rewrite layoutNodes_data.
  split; [apply groups_perm|]. split; [|reflexivity].
  unfold layoutNodes. rewrite group_tasks_filter. simpl.
  rewrite !map_app, !column_from_id. reflexivity.
Qed.

Lemma status_layout_keeps_tasks_witness :
  let tasks := [Task.mk "1" "a" None "done" "d1" None None;
                Task.mk "2" "b" None "inreview" "d2" None None;
                Task.mk "3" "c" None "todo" "d3" None None] in
  Forall (fun t => In (Task.status t) task_statuses) tasks
  /\ Permutation (map data (layoutNodes tasks)) tasks
  /\ map id (layoutNodes tasks) = ["2"; "3"; "1"].
Proof.
  intros tasks.
  assert (Forall (fun t => In (Task.status t) task_statuses) tasks) as H.
  { repeat constructor; simpl; tauto. }
  split; [exact H|]. split; [|reflexivity].
  exact (proj1 (status_layout_keeps_tasks tasks H)).
Defined.

Lemma column_cells (c : Z) (l : list Task.t) :
  Forall (fun t => Task.dag_position_x t = None /\ Task.dag_position_y t = None) l ->
  forall r p,
    In p (map position (column_from c r l)) ->
    exists j, (r <= j)%Z /\ p = mkPosition (c * 250) (j * 120).
Proof.
  induction 1 as [|t l [Hx Hy] _ IH]; intros r p; simpl; [tauto|].
  intros [Hp | Hp].
  - exists r. split; [lia|]. subst p. unfold node_at. simpl.
    rewrite Hx, Hy. reflexivity.
  - destruct (IH _ _ Hp) as [j [Hj Hpj]]. exists j. split; [lia | exact Hpj].
Qed.

Lemma column_apart (c : Z) (l : list Task.t) :
  Forall (fun t => Task.dag_position_x t = None /\ Task.dag_position_y t = None) l ->
  forall r, NoDup (map position (column_from c r l)).
Proof.
  intros Hl. induction Hl as [|t l [Hx Hy] Hl IH]; intros r; simpl; constructor.
  - intros Hin. destruct (column_cells c l Hl _ _ Hin) as [j [Hj Hpj]].
    unfold node_at in Hpj. simpl in Hpj. rewrite Hx, Hy in Hpj. simpl in Hpj.
    inversion Hpj. lia.
  - apply IH.
Qed.

Lemma columns_apart (c c' : Z) (l l' : list Task.t) (p : XYPosition) :
  Forall (fun t => Task.dag_position_x t = None /\ Task.dag_position_y t = None) l ->
  Forall (fun t => Task.dag_position_x t = None /\ Task.dag_position_y t = None) l' ->
  c <> c' ->
  In p (map position (column_from c 0 l)) ->
  ~ In p (map position (column_from c' 0 l')).
Proof.
  intros Hl Hl' Hc Hp Hp'.
  destruct (column_cells c l Hl _ _ Hp) as [j [_ Hj]].
  destruct (column_cells c' l' Hl' _ _ Hp') as [j' [_ Hj']].
  rewrite Hj in Hj'. inversion Hj'. lia.
Qed.

Lemma filter_Forall {A : Type} (P : A -> Prop) (f : A -> bool) (l : list A) :
  Forall P l -> Forall P (filter f l).
Proof.
  intros H. apply Forall_forall. intros a Ha. apply filter_In in Ha.
  rewrite Forall_forall in H. apply H. tauto.
Qed.

(** Tasks without a saved position never share a position, and a task
    whose status has no column of its own (in review, cancelled) stands
    in the first column with the tasks still to do. *)
Theorem status_columns_do_not_overlap (tasks : list Task.t) :
  Forall (fun t => In (Task.status t) task_statuses) tasks ->
  Forall (fun t => Task.dag_position_x t = None /\ Task.dag_position_y t = None)
         tasks ->
  NoDup (map position (layoutNodes tasks))
  /\ Forall (fun n =>
               x (position n)
               = if Task.status (data n) =? "inprogress" then 250%Z
                 else if Task.status (data n) =? "done" then 500%Z
                 else 0%Z)
            (layoutNodes tasks).
Proof.
  intros _ Hunsaved. unfold layoutNodes. rewrite group_tasks_filter. simpl.
  pose proof (filter_Forall _ other tasks Hunsaved) as H0.
  pose proof (filter_Forall _ in_progress tasks Hunsaved) as H1.
  pose proof (filter_Forall _ is_done tasks Hunsaved) as H2.
  split.
  - rewrite !map_app. apply NoDup_app; [apply column_apart; exact H0| |].
    + apply NoDup_app; [apply column_apart; exact H1 | apply column_apart; exact H2|].
      intros p. apply columns_apart; [exact H1 | exact H2 | lia].
    + intros p Hp Hin. apply in_app_or in Hin. destruct Hin as [Hin | Hin].
      * exact (columns_apart 0 1 _ _ p H0 H1 ltac:(lia) Hp Hin).
      * exact (columns_apart 0 2 _ _ p H0 H2 ltac:(lia) Hp Hin).
  - assert (forall c l r,
               Forall (fun t => Task.dag_position_x t = None
                                /\ Task.dag_position_y t = None) l ->
               Forall (fun n => x (position n) = (c * 250)%Z /\ In (data n) l)
                      (column_from c r l)) as Hcol.
    { intros c l r Hl. revert r.
      induction Hl as [|t l [Hx Hy] _ IH]; intros r; simpl; constructor.
      - unfold node_at. simpl. rewrite Hx. simpl. split; [reflexivity | tauto].
      - eapply Forall_impl; [|apply IH]. simpl. intros n [Hn Hin]. tauto. }
    apply Forall_app; split.
    + eapply Forall_impl; [|apply (Hcol 0%Z _ 0%Z H0)].
      intros n [Hx Hin]. apply filter_In in Hin. destruct Hin as [_ Hin].
      apply andb_prop in Hin. destruct Hin as [Ha Hb].
      apply negb_true_iff in Ha, Hb. rewrite Ha, Hb. exact Hx.
    + apply Forall_app; split.
      * eapply Forall_impl; [|apply (Hcol 1%Z _ 0%Z H1)].
        intros n [Hx Hin]. apply filter_In in Hin. destruct Hin as [_ Hin].
        simpl in Hin. rewrite Hin. exact Hx.
      * eapply Forall_impl; [|apply (Hcol 2%Z _ 0%Z H2)].
        intros n [Hx Hin]. apply filter_In in Hin. destruct Hin as [_ Hin].
        simpl in Hin. rewrite Hin.
        destruct (String.eqb_spec (Task.status (data n)) "inprogress") as [He|_];
          [|exact Hx].
        apply String.eqb_eq in Hin. rewrite He in Hin. discriminate.
Qed.

Lemma status_columns_do_not_overlap_witness :
  let tasks := [Task.mk "1" "a" None "done" "d1" None None;
                Task.mk "2" "b" None "inreview" "d2" None None;
                Task.mk "3" "c" None "todo" "d3" None None] in
  Forall (fun t => In (Task.status t) task_statuses) tasks
  /\ Forall (fun t => Task.dag_position_x t = None /\ Task.dag_position_y t = None)
            tasks
  /\ NoDup (map position (layoutNodes tasks)).
Proof.
  intros tasks.
  assert (Forall (fun t => In (Task.status t) task_statuses) tasks) as H.
  { repeat constructor; simpl; tauto. }
  assert (Forall (fun t => Task.dag_position_x t = None /\ Task.dag_position_y t = None)
                 tasks) as H' by (repeat constructor).
  split; [exact H|]. split; [exact H'|].
  exact (proj1 (status_columns_do_not_overlap tasks H H')).
Defined.

End StatusFacts.


(** ** The effect that lays out on its own *)

Module AutoLayoutFacts.
Import AutoLayoutEffect.

Lemma step_once_applied (r : refs) (ev : event) :
  initialLayoutApplied r = true ->
  initialLayoutApplied (fst (step r ev)) = true
  /\ is_scheduled (snd (step r ev)) = false.
Proof.
  intros Ha. destruct ev as [i|]; simpl.
  - unfold effect. simpl. rewrite Ha. simpl.
    destruct (autoLayoutEnabled i && negb (depsCount i =? prevDepsCount r)%nat);
      simpl; auto.
  - split; [exact Ha|]. destruct (timer r); reflexivity.
Qed.

Lemma step_schedules (r : refs) (ev : event) :
  is_scheduled (snd (step r ev)) = true ->
  initialLayoutApplied (fst (step r ev)) = true.
Proof.
  destruct ev as [i|]; simpl.
  - unfold effect. simpl.
    destruct (negb (initialLayoutApplied r) && autoLayoutEnabled i
              && (0 <? nodesCount i)%nat && (0 <? edgesCount i)%nat);
      [reflexivity|].
    destruct (initialLayoutApplied r && autoLayoutEnabled i
              && negb (depsCount i =? prevDepsCount r)%nat); discriminate.
  - destruct (timer r); discriminate.
Qed.

Lemma run_once_applied (evs : list event) :
  forall r,
    initialLayoutApplied r = true ->
    filter is_scheduled (snd (run evs r)) = [].
Proof.
  induction evs as [|ev evs IH]; intros r Ha; simpl; [reflexivity|].
  destruct (step_once_applied r ev Ha) as [Ha' Hs].
  destruct (step r ev) as [r' o]. simpl in *.
  specialize (IH r' Ha'). destruct (run evs r') as [r'' os]. simpl in *.
  rewrite Hs. exact IH.
Qed.

(** However often the effect runs and whenever the timeout fires, the
    first layout is scheduled at most once; once it has been scheduled
    it is never scheduled again. *)
Theorem initial_layout_is_scheduled_once (evs : list event) (r : refs) :
  (length (filter is_scheduled (snd (run evs r))) <= 1)%nat
  /\ (initialLayoutApplied r = true ->
      filter is_scheduled (snd (run evs r)) = []).
Proof.
  split; [|apply run_once_applied].
  revert r. induction evs as [|ev evs IH]; intros r; simpl; [lia|].
  pose proof (step_schedules r ev) as Hs.
  destruct (step r ev) as [r' o]. simpl in Hs.
  specialize (IH r'). pose proof (run_once_applied evs r') as Hnone.
  destruct (run evs r') as [r'' os]. simpl in *.
  destruct (is_scheduled o); simpl; [|exact IH].
  rewrite (Hnone (Hs eq_refl)). simpl. lia.
Qed.

Lemma initial_layout_is_scheduled_once_witness :
  initialLayoutApplied (mkRefs 2 true false) = true
  /\ filter is_scheduled
       (snd (run [Run (mkInputs true 3 4 3); Timeout] (mkRefs 2 true false))) = [].
Proof.
  split; [reflexivity|].
  exact (proj2 (initial_layout_is_scheduled_once
                  [Run (mkInputs true 3 4 3); Timeout] (mkRefs 2 true false))
               eq_refl).
Defined.

(** The effect only compares the number of dependencies with the number
    at its last run.  A run with the automatic layout switched off
    records the new number, so switching it on again with that number
    lays out nothing: what changed meanwhile stays as it is. *)
Theorem changes_while_off_are_not_laid_out (r : refs) (off on : inputs) :
  initialLayoutApplied r = true ->
  autoLayoutEnabled off = false ->
  depsCount on = depsCount off ->
  snd (run [Run off; Run on] r) = [Nothing; Nothing].
Proof.
  intros Ha Hoff Hsame. simpl. unfold effect. simpl.
  rewrite Ha, Hoff, Hsame. simpl.
  rewrite Nat.eqb_refl, andb_false_r. reflexivity.
Qed.

Lemma changes_while_off_are_not_laid_out_witness :
  snd (run [Run (mkInputs false 5 4 5); Run (mkInputs true 5 4 5)]
           (mkRefs 2 true false))
  = [Nothing; Nothing].
Proof.
  apply (changes_while_off_are_not_laid_out (mkRefs 2 true false)
           (mkInputs false 5 4 5) (mkInputs true 5 4 5)); reflexivity.
Defined.

(** The first layout waits for a timeout.  When the timeout comes first
    the layout happens; when the effect runs again before it, with the
    same number of dependencies, the timeout is cleared and neither
    that run nor the timeout lays out. *)
Theorem rerun_cancels_first_layout (r : refs) (i again : inputs) :
  snd (step r (Run i)) = LayoutScheduled ->
  depsCount again = depsCount i ->
  snd (step (fst (step r (Run i))) Timeout) = LayoutNow
  /\ snd (run [Run again; Timeout] (fst (step r (Run i)))) = [Nothing; Nothing].
Proof.
  simpl. unfold effect. simpl.
  destruct (negb (initialLayoutApplied r) && autoLayoutEnabled i
            && (0 <? nodesCount i)%nat && (0 <? edgesCount i)%nat); simpl.
  - intros _ Hsame. split; [reflexivity|].
    rewrite Hsame, Nat.eqb_refl. simpl. rewrite andb_false_r. reflexivity.
  - destruct (initialLayoutApplied r && autoLayoutEnabled i
              && negb (depsCount i =? prevDepsCount r)%nat); discriminate.
Qed.

Lemma rerun_cancels_first_layout_witness :
  snd (step (mount 3) (Run (mkInputs true 3 4 3))) = LayoutScheduled
  /\ snd (run [Run (mkInputs true 3 5 3); Timeout]
              (fst (step (mount 3) (Run (mkInputs true 3 4 3)))))
     = [Nothing; Nothing].
Proof.
  split; [reflexivity|].
  exact (proj2 (rerun_cancels_first_layout (mount 3) (mkInputs true 3 4 3)
                  (mkInputs true 3 5 3) eq_refl eq_refl)).
Defined.

End AutoLayoutFacts.

(** ** Dragging a node onto the pool *)

Module DragFacts.
Import Flow View DragToPool.

Lemma run_app {T : Type} (sidebar : option DOMRect) (evs evs' : list (event T)) :
  forall st,
    run sidebar (evs ++ evs') st
    = (fst (run sidebar evs' (fst (run sidebar evs st))),
       (snd (run sidebar evs st)
        ++ snd (run sidebar evs' (fst (run sidebar evs st))))%list).
Proof.
  induction evs as [|ev evs IH]; intros st; simpl.
  - destruct (run sidebar evs' st); reflexivity.
  - destruct (step sidebar st ev) as [st' rs]. rewrite IH.
    destruct (run sidebar evs st') as [st'' rs']. simpl.
    now rewrite app_assoc.
Qed.

Lemma last_cons {A : Type} (a d d' : A) (l : list A) :
  last (a :: l) d = last (a :: l) d'.
Proof.
  revert a. induction l as [|b l IH]; intros a; [reflexivity|].
  change (last (b :: l) d = last (b :: l) d'). apply IH.
Qed.

Lemma run_moves {T : Type} (sidebar : option DOMRect) (points : list (Z * Z)) :
  forall b,
    run (T := T) sidebar (moves points) (mkDrag b b)
    = (let over :=
         last (map (fun p => isOverSidebar sidebar (fst p) (snd p)) points) b in
       mkDrag over over,
       []).
Proof.
  induction points as [|p points IH]; intros b; [reflexivity|].
  unfold moves. simpl. fold (moves (T := T) points). rewrite IH.
  destruct points as [|q points]; [reflexivity|].
  cbv zeta. do 2 f_equal; apply last_cons.
Qed.

(** A node is sent back to the pool exactly when the last move of the
    drag was over the sidebar, borders included; the request then clears
    the position of that node and nothing else is asked.  A stop without
    a move asks for nothing. *)
Theorem stop_over_sidebar_clears_position {T : Type} (sidebar : option DOMRect)
    (points : list (Z * Z)) (node : Node T) :
  snd (run sidebar (moves points ++ [DragStop node]) idle)
  = if last (map (fun p => isOverSidebar sidebar (fst p) (snd p)) points) false
    then [UpdateTaskReq (id node) clear_position]
    else [].
Proof.
  rewrite run_app. unfold idle. rewrite run_moves. simpl.
  destruct (last _ false); reflexivity.
Qed.

(** While the sidebar is not on the page no drag sends a node to the
    pool, whatever is dragged and wherever it stops: no request is
    issued and the drag state stays idle. *)
Theorem no_sidebar_no_clearing {T : Type} (evs : list (event T)) :
  run None evs idle = (idle, []).
Proof.
  induction evs as [|ev evs IH]; [reflexivity|].
  simpl. destruct ev as [clientX clientY | | node]; simpl.
  - fold (@idle). rewrite IH. reflexivity.
  - fold (@idle). rewrite IH. reflexivity.
  - fold (@idle). rewrite IH. reflexivity.
Qed.

End DragFacts.


(** ** The sidebar of the pool *)

Module SidebarFacts.
Import Sidebar.

Lemma step_in_range (st : state) (ev : event) :
  (MIN_WIDTH <= internalWidth st <= MAX_WIDTH)%Z ->
  (MIN_WIDTH <= internalWidth (step st ev) <= MAX_WIDTH)%Z.
Proof.
  intros H. destruct ev as [cx | cx |]; simpl; try exact H.
  destruct (isResizing st); simpl; [|exact H].
  unfold MIN_WIDTH, MAX_WIDTH in *. lia.
Qed.

(** Dragging the resize handle never takes a width that lies between
    200 and 600 out of that range.  A move only changes the width while
    a resize is under way, and then it brings any width into the range. *)
Theorem width_stays_in_range (evs : list event) (st : state) :
  (200 <= internalWidth st <= 600)%Z ->
  (200 <= internalWidth (run evs st) <= 600)%Z
  /\ (forall other clientX,
        if isResizing other
        then (200 <= internalWidth (step other (ResizeMove clientX)) <= 600)%Z
        else internalWidth (step other (ResizeMove clientX)) = internalWidth other).
Proof.
  intros H. split.
  - revert st H. induction evs as [|ev evs IH]; intros st H; [exact H|].
    simpl. apply IH. exact (step_in_range st ev H).
  - intros other clientX. simpl. destruct (isResizing other); simpl; [|reflexivity].
    unfold MIN_WIDTH, MAX_WIDTH. lia.
Qed.

Lemma width_stays_in_range_witness :
  (200 <= internalWidth (mkSidebar DEFAULT_WIDTH false 0 0) <= 600)%Z
  /\ (200 <= internalWidth
              (run [ResizeStart 300; ResizeMove 1500; ResizeEnd]
                   (mkSidebar DEFAULT_WIDTH false 0 0)) <= 600)%Z.
Proof.
  assert (200 <= internalWidth (mkSidebar DEFAULT_WIDTH false 0 0) <= 600)%Z as H
    by (unfold DEFAULT_WIDTH; simpl; lia).
  split; [exact H|].
  exact (proj1 (width_stays_in_range [ResizeStart 300; ResizeMove 1500; ResizeEnd]
                  (mkSidebar DEFAULT_WIDTH false 0 0) H)).
Defined.

Section Dates.

Variable getTime : string -> Z.

Local Abbreviation time := (fun t : Task.t => getTime (Task.created_at t)).

Lemma pool_order_total (a b : Task.t) :
  (0 < pool_order getTime a b)%Z -> (pool_order getTime b a <= 0)%Z.
Proof.
  unfold pool_order. destruct (is_done a), (is_done b); simpl; lia.
Qed.

Lemma pool_order_trans (a b c : Task.t) :
  (pool_order getTime a b <= 0)%Z -> (pool_order getTime b c <= 0)%Z ->
  (pool_order getTime a c <= 0)%Z.
Proof.
  unfold pool_order. destruct (is_done a), (is_done b), (is_done c); simpl; lia.
Qed.

Lemma pool_order_before (a b : Task.t) :
  (pool_order getTime a b <= 0)%Z ->
  (is_done a = true -> is_done b = true)
  /\ (is_done a = is_done b -> (time b <= time a)%Z).
Proof.
  unfold pool_order. destruct (is_done a), (is_done b); simpl;
    intros H; split; intros; try lia; congruence.
Qed.

Lemma count_split (l : list Task.t) :
  (todoCount l + doneCount l = length l)%nat.
Proof.
  unfold todoCount, doneCount. induction l as [|t l IH]; simpl; [reflexivity|].
  destruct (is_done t); simpl; lia.
Qed.

(** The pool shows every pooled task once.  A task that is done never
    stands before one that is not, and among the tasks that are both
    done or both not done a newer one never stands after an older one.
    The two counters add up to the number of cards. *)
Theorem pool_is_sorted (poolTasks : list Task.t) :
  Permutation (sortedTasks getTime poolTasks) poolTasks
  /\ StronglySorted
       (fun a b =>
          (is_done a = true -> is_done b = true)
          /\ (is_done a = is_done b -> (time b <= time a)%Z))
       (sortedTasks getTime poolTasks)
  /\ (todoCount poolTasks + doneCount poolTasks
      = length (sortedTasks getTime poolTasks))%nat.
Proof.
  unfold sortedTasks. split; [apply ArraySortFacts.sort_perm|]. split.
  - pose proof (ArraySortFacts.sort_sorted (pool_order getTime)
                  pool_order_total pool_order_trans poolTasks) as Hs.
    induction Hs as [|a l _ IH Ha]; constructor; [exact IH|].
    eapply Forall_impl; [|exact Ha]. intros b. apply pool_order_before.
  - rewrite count_split. symmetry. apply Permutation_length.
    apply ArraySortFacts.sort_perm.
Qed.

End Dates.

(** A card shows no preview for a task without description or with an
    empty one.  Otherwise the preview is the description itself when it
    has at most 120 code units, and else its first 120 code units
    followed by three dots: a preview is never empty and never longer
    than 123 code units. *)
Theorem preview_is_bounded (description : option utf16) :
  match descriptionPreview description with
  | None => description = None \/ description = Some []
  | Some preview =>
      exists units,
        description = Some units
        /\ preview <> []
        /\ (length preview <= 123)%nat
        /\ if (120 <? length units)%nat
           then preview = (firstn 120 units ++ dots)%list
                /\ length preview = 123%nat
           else preview = units
  end.
Proof.
  unfold descriptionPreview.
  destruct description as [[|u units]|]; [right; reflexivity | | left; reflexivity].
  destruct (Nat.ltb_spec 120 (length (u :: units))) as [Hlong | Hshort].
  - exists (u :: units). split; [reflexivity|].
    assert (length (firstn 120 (u :: units) ++ dots) = 123%nat) as Hlen.
    { rewrite length_app, length_firstn. simpl length in *. lia. }
    split; [intros H; rewrite H in Hlen; discriminate|].
    split; [lia|].
    destruct (Nat.ltb_spec 120 (length (u :: units))); [|lia].
    split; [reflexivity | exact Hlen].
  - exists (u :: units). split; [reflexivity|]. split; [discriminate|].
    split; [lia|].
    destruct (Nat.ltb_spec 120 (length (u :: units))); [lia | reflexivity].
Qed.

End SidebarFacts.


(** ** The view that is handed its dependencies *)

Module PropsFacts.
Import Flow PropsView.

(** Following the task list never adds, removes, moves or retypes a
    node: a task that joined the list gets no node and a task that left
    keeps its node, unchanged.  Every node whose task is still listed
    shows that task, selected exactly when it is the selected task. *)
Theorem sync_keeps_the_nodes (tasks : list Task.t) (selectedTaskId : option string)
    (currentNodes : list (Node TaskNodeData)) :
  let nodes := syncNodes tasks selectedTaskId currentNodes in
  map id nodes = map id currentNodes
  /\ map position nodes = map position currentNodes
  /\ map type nodes = map type currentNodes
  /\ Forall2
       (fun old new =>
          match find (fun t => Task.id t =? id old) tasks with
          | Some t =>
              Task.id t = id old
              /\ data new = mkData t (selected selectedTaskId t)
          | None => new = old
          end)
       currentNodes nodes.
Proof.
  intros nodes. subst nodes. unfold syncNodes.
  repeat split.
  - rewrite map_map. apply map_ext. intros n.
    destruct (find _ tasks); reflexivity.
  - rewrite map_map. apply map_ext. intros n.
    destruct (find _ tasks); reflexivity.
  - rewrite map_map. apply map_ext. intros n.
    destruct (find _ tasks); reflexivity.
  - induction currentNodes as [|n currentNodes IH]; simpl; constructor; [|exact IH].
    destruct (find (fun t => Task.id t =? id n) tasks) as [t|] eqn:Hfind;
      [|reflexivity].
    apply find_some in Hfind. destruct Hfind as [_ Hid].
    apply String.eqb_eq in Hid. split; [exact Hid | reflexivity].
Qed.

Section Engine.

Context {T : Type}.
Variable layout : Dagre.engine.

(** The automatic layout saves one position for every node it was given,
    in order and under the id of the node, and the position saved is the
    one the node is shown at afterwards. *)
Theorem auto_layout_saves_every_node (nodes : list (Node T)) (edges : list Edge) :
  let shown := fst (onAutoLayout layout nodes edges) in
  let saved := snd (onAutoLayout layout nodes edges) in
  map taskId saved = map id nodes
  /\ map id shown = map id nodes
  /\ map (fun s => mkPosition (x s) (y s)) saved = map position shown.
Proof.
  intros shown saved. subst shown saved. unfold onAutoLayout. simpl.
  rewrite !map_map. simpl.
  split; [apply (LayoutFacts.layouted_ids layout nodes edges autoLayoutOptions)|].
  split; [apply (LayoutFacts.layouted_ids layout nodes edges autoLayoutOptions)|].
  apply map_ext. intros n. destruct (position n); reflexivity.
Qed.

End Engine.

Lemma hasNoPositions_spec (tasks : list Task.t) :
  hasNoPositions tasks = true
  <-> Forall (fun t => Task.dag_position_x t = None /\ Task.dag_position_y t = None)
             tasks.
Proof.
  unfold hasNoPositions. rewrite forallb_forall, Forall_forall.
  split; intros H t Ht; specialize (H t Ht);
    destruct (Task.dag_position_x t), (Task.dag_position_y t);
    try discriminate; try tauto; destruct H; discriminate.
Qed.

Lemma initial_positions (tasks : list Task.t) (selectedTaskId : option string) :
  Forall (fun t => Task.dag_position_x t = None /\ Task.dag_position_y t = None)
         tasks ->
  Forall (fun n => position n = mkPosition 0 0) (initialNodes tasks selectedTaskId).
Proof.
  induction 1 as [|t tasks [Hx Hy] _ IH]; simpl; constructor; [|exact IH].
  simpl. rewrite Hx, Hy. reflexivity.
Qed.

Lemma scheduled_spec (tasks : list Task.t) (st : initialLayout) :
  snd (initialStep st (Render tasks)) = Scheduled
  <-> hasInitialized st = false
      /\ tasks <> []
      /\ Forall (fun t => Task.dag_position_x t = None /\ Task.dag_position_y t = None)
                tasks.
Proof.
  rewrite <- hasNoPositions_spec. simpl. unfold initialLayoutEffect. simpl.
  destruct (hasInitialized st); simpl.
  - split; [discriminate | intros [H _]; discriminate].
  - destruct (hasNoPositions tasks); simpl.
    + destruct tasks as [|t tasks]; simpl.
      * split; [discriminate | intros [_ [H _]]; congruence].
      * split; [intros _; repeat split; discriminate | reflexivity].
    + split; [discriminate | intros [_ [_ H]]; discriminate].
Qed.

Lemma initialized_stays_idle (evs : list initialEvent) :
  forall st,
    hasInitialized st = true ->
    Forall (fun o => o <> Scheduled) (snd (initialRun evs st)).
Proof.
  induction evs as [|ev evs IH]; intros st Hinit; simpl; [constructor|].
  assert (hasInitialized (fst (initialStep st ev)) = true
          /\ snd (initialStep st ev) <> Scheduled) as [Hinit' Ho].
  { destruct ev as [tasks|]; simpl.
    - unfold initialLayoutEffect. simpl. rewrite Hinit. simpl.
      split; [exact Hinit | discriminate].
    - split; [exact Hinit|]. destruct (layoutTimer st); discriminate. }
  destruct (initialStep st ev) as [st' o]. simpl in *.
  specialize (IH st' Hinit'). destruct (initialRun evs st') as [st'' os].
  simpl in *. constructor; assumption.
Qed.

(** The effect of the first render schedules the automatic layout
    exactly when it has not scheduled one before, there is a task, and
    no task has a saved coordinate; all initial nodes then lie on top of
    each other at the origin.  Scheduling sets hasInitialized: no later
    run schedules again, the layout runs if the timeout fires next, and
    a run of the effect that comes before the timeout clears it, so that
    neither that run nor the timeout lays out. *)
Theorem initial_layout_is_requested_once (tasks : list Task.t)
    (selectedTaskId : option string) (st : initialLayout) :
  (snd (initialStep st (Render tasks)) = Scheduled
   <-> hasInitialized st = false
       /\ tasks <> []
       /\ Forall (fun t => Task.dag_position_x t = None
                           /\ Task.dag_position_y t = None) tasks)
  /\ (snd (initialStep st (Render tasks)) = Scheduled ->
      let st' := fst (initialStep st (Render tasks)) in
      Forall (fun n => position n = mkPosition 0 0)
             (initialNodes tasks selectedTaskId)
      /\ hasInitialized st' = true
      /\ snd (initialStep st' TimerFires) = AutoLayout
      /\ forall again,
          snd (initialRun [Render again; TimerFires] st') = [Idle; Idle])
  /\ (hasInitialized st = true ->
      forall evs, Forall (fun o => o <> Scheduled) (snd (initialRun evs st))).
Proof.
  split; [apply scheduled_spec|]. split; [|intros H evs; now apply initialized_stays_idle].
  intros Hs. pose proof (proj1 (scheduled_spec tasks st) Hs) as [_ [_ Hnone]].
  split; [apply initial_positions; exact Hnone|].
  revert Hs. simpl. unfold initialLayoutEffect. simpl.
  destruct (hasInitialized st); simpl; [discriminate|].
  destruct (hasNoPositions tasks && (0 <? length tasks)%nat); simpl; [|discriminate].
  intros _. repeat split.
Qed.

Lemma initial_layout_is_requested_once_witness :
  let tasks := [Scenario.pooled_task] in
  snd (initialStep (mkInitial false false) (Render tasks)) = Scheduled
  /\ Forall (fun n => position n = mkPosition 0 0) (initialNodes tasks None)
  /\ snd (initialRun [Render tasks; TimerFires]
                     (fst (initialStep (mkInitial false false) (Render tasks))))
     = [Idle; Idle].
Proof.
  intros tasks.
  assert (snd (initialStep (mkInitial false false) (Render tasks)) = Scheduled) as Hs
    by reflexivity.
  split; [exact Hs|].
  destruct (proj1 (proj2 (initial_layout_is_requested_once tasks None
                            (mkInitial false false))) Hs)
    as [Horigin [_ [_ Hagain]]].
  split; [exact Horigin | exact (Hagain tasks)].
Defined.

End PropsFacts.

(** ** More on the layout wrapper *)

Module LayoutMoreFacts.
Import Flow DagLayout LayoutPolicy.

Lemma node_fold_setNode_other {T L : Type} (nodes : list (Node T)) (label : L)
    (v : string) :
  ~ In v (map id nodes) ->
  forall g : Dagre.Graph L,
    Dagre.node (fold_left (fun g node => Dagre.setNode (id node) label g) nodes g) v
    = Dagre.node g v.
Proof.
  induction nodes as [|n nodes IH]; intros Hnot g; simpl; [reflexivity|].
  simpl in Hnot. rewrite IH by tauto. rewrite LayoutFacts.node_setNode.
  destruct (String.eqb_spec (id n) v) as [Heq|_]; [tauto | reflexivity].
Qed.

(** In the graph handed to the layout library exactly the input nodes
    carry a size, the fixed 280 by 100: an end of an edge that is not
    among the nodes, such as a pooled task, enters the graph without
    one. *)
Theorem only_input_nodes_are_sized {T : Type} (nodes : list (Node T))
    (edges : list Edge) (options : LayoutOptions) (v : string) :
  (In v (map id nodes) ->
   Dagre.node (build_graph nodes edges options) v = Some (Dagre.mkSize 280 100))
  /\ (~ In v (map id nodes) ->
      Dagre.node (build_graph nodes edges options) v = None).
Proof.
  split.
  - intros Hin. apply in_map_iff in Hin. destruct Hin as [n [<- Hn]].
    apply LayoutFacts.node_build_graph. exact Hn.
  - intros Hnot. unfold build_graph. rewrite LayoutFacts.node_fold_setEdge.
    rewrite node_fold_setNode_other by exact Hnot. reflexivity.
Qed.

Lemma only_input_nodes_are_sized_witness :
  In "A" (map id Scenario.knot_nodes)
  /\ Dagre.node (build_graph Scenario.knot_nodes
                   [mkEdge "dep-9" "P" "A" "dependency"] no_options) "A"
     = Some (Dagre.mkSize 280 100)
  /\ Dagre.node (build_graph Scenario.knot_nodes
                   [mkEdge "dep-9" "P" "A" "dependency"] no_options) "P"
     = None.
Proof.
  assert (In "A" (map id Scenario.knot_nodes)) as H by (simpl; tauto).
  split; [exact H|]. split.
  - exact (proj1 (only_input_nodes_are_sized Scenario.knot_nodes
                    [mkEdge "dep-9" "P" "A" "dependency"] no_options "A") H).
  - apply (proj2 (only_input_nodes_are_sized Scenario.knot_nodes
                    [mkEdge "dep-9" "P" "A" "dependency"] no_options "P")).
    simpl. intros [H' | [H' | []]]; discriminate.
Defined.

Lemma positions_by_id {T : Type} (g : Dagre.Graph Dagre.NodeLayout)
    (nodes : list (Node T)) :
  (forall n, In n nodes -> exists l, Dagre.node g (id n) = Some l) ->
  map position (map (apply_position g) nodes)
  = map (fun v =>
           match Dagre.node g v with
           | Some l => mkPosition (Dagre.x l - 140) (Dagre.y l - 50)
           | None => mkPosition 0 0
           end)
        (map id nodes).
Proof.
  induction nodes as [|n nodes IH]; intros Hl; simpl; [reflexivity|].
  rewrite IH by (intros m Hm; apply Hl; simpl; tauto).
  f_equal. destruct (Hl n) as [l Hn]; [simpl; tauto|].
  unfold apply_position. rewrite Hn. reflexivity.
Qed.

(** Where the nodes were before plays no part in where the layout puts
    them: two node lists with the same ids, in the same order, come
    back at the same positions. *)
Theorem layout_ignores_old_positions {T U : Type} (layout : Dagre.engine)
    (nodes : list (Node T)) (nodes' : list (Node U)) (edges : list Edge)
    (options : LayoutOptions) :
  keeps_labels layout ->
  map id nodes = map id nodes' ->
  map position (getLayoutedElements layout nodes edges options)
  = map position (getLayoutedElements layout nodes' edges options).
Proof.
  intros Hkeeps Hids. unfold getLayoutedElements.
  rewrite <- (LayoutFacts.build_graph_ids nodes nodes' edges options Hids).
  rewrite !positions_by_id; [now rewrite Hids| |].
  - intros n Hn. eapply Hkeeps.
    rewrite (LayoutFacts.build_graph_ids nodes nodes' edges options Hids).
    apply LayoutFacts.node_build_graph. exact Hn.
  - intros n Hn. eapply Hkeeps. apply LayoutFacts.node_build_graph. exact Hn.
Qed.

Lemma layout_ignores_old_positions_witness :
  let moved := [ mkNode "A" "task" (mkPosition 700 20) tt;
                 mkNode "B" "task" (mkPosition (-30) 45) tt ] in
  keeps_labels Scenario.column
  /\ map id Scenario.knot_nodes = map id moved
  /\ map position
       (getLayoutedElements Scenario.column Scenario.knot_nodes
          Scenario.knot_edges no_options)
     = map position
         (getLayoutedElements Scenario.column moved Scenario.knot_edges no_options).
Proof.
  intros moved.
  split; [exact LayoutFacts.column_keeps_labels|]. split; [reflexivity|].
  exact (layout_ignores_old_positions Scenario.column Scenario.knot_nodes moved
           Scenario.knot_edges no_options LayoutFacts.column_keeps_labels eq_refl).
Defined.

End LayoutMoreFacts.


(** ** The alert of a failed creation, and the page as a whole *)

Module PageFacts.
Import Flow View.

(** The alert tells a conflict from every other failure: the user reads
    the conflict text exactly when the service answered with status
    409, and otherwise the message of the failure after a fixed
    introduction. *)
Theorem alert_tells_conflict (error : ApiError.t) :
  (Hook.create_error_text error = Hook.conflict_text
   <-> ApiError.status error = 409%Z)
  /\ (ApiError.status error <> 409%Z ->
      Hook.create_error_text error
      = "Failed to create dependency: " ++ ApiError.message error).
Proof.
  unfold Hook.create_error_text.
  destruct (Z.eqb_spec (ApiError.status error) 409) as [H409 | Hother]; split.
  - tauto.
  - tauto.
  - split; [|tauto]. unfold Hook.conflict_text. cbn. discriminate.
  - reflexivity.
Qed.

Lemma alert_tells_conflict_witness :
  ApiError.status (ApiError.mk 500 "Internal Server Error") <> 409%Z
  /\ Hook.create_error_text (ApiError.mk 500 "Internal Server Error")
     = "Failed to create dependency: Internal Server Error".
Proof.
  assert (ApiError.status (ApiError.mk 500 "Internal Server Error") <> 409%Z) as H
    by discriminate.
  split; [exact H|].
  exact (proj2 (alert_tells_conflict (ApiError.mk 500 "Internal Server Error")) H).
Defined.

Lemma filter_split {A : Type} (f : A -> bool) (l : list A) :
  Permutation (filter f l ++ filter (fun a => negb (f a)) l) l.
Proof.
  induction l as [|a l IH]; simpl; [apply perm_nil|].
  destruct (f a); simpl.
  - apply perm_skip. exact IH.
  - apply Permutation_sym, Permutation_cons_app, Permutation_sym. exact IH.
Qed.

Section Dates.

Variable getTime : string -> Z.

(** Every task is on the page exactly once: the ids of the nodes of the
    graph together with the ids of the cards of the pool are the ids of
    the tasks, rearranged. *)
Theorem every_task_is_shown_once (tasks : list Task.t) :
  Permutation
    (map id (GridLayout.layoutNodes getTime (dagTasks tasks))
     ++ map Task.id (Sidebar.sortedTasks getTime (poolTasks tasks)))
    (map Task.id tasks).
Proof.
  unfold GridLayout.layoutNodes, Sidebar.sortedTasks, dagTasks, poolTasks.
  rewrite ViewFacts.classify_filter. simpl.
  rewrite GridFacts.nodes_from_id, <- map_app.
  apply Permutation_map.
  eapply perm_trans; [|apply (filter_split has_position tasks)].
  apply Permutation_app; apply ArraySortFacts.sort_perm.
Qed.

End Dates.

End PageFacts.
